(** * Version selection and loading of Intel TDX module blobs

    A shallow embedding of [version_select_and_load.py] and the properties
    of its header reader, catalog builder, compatibility evaluator, module
    selector and firmware loader.

    Conventions of the embedding:
    - a Python [str] or [bytes] value is a [string], its characters being
      code points (or byte values) 0..255;
    - a Python [int] is a [Z];
    - code that reads or writes the platform runs in the monad [M], which
      threads a [World] (the trace of I/O events performed so far and a
      simulated clock) and returns a [result]: a value, a raised
      [Exception], or [SystemExit];
    - what the platform answers is given by an [Env], an oracle indexed by
      the number of events performed so far, so a node may read differently
      each time it is read. *)

From Stdlib Require Import ZArith QArith Lqa Ascii String List Lia Bool Sorted.
From stdpp Require Import base strings list gmap.

Local Open Scope string_scope.
Local Open Scope Z_scope.

(** ** Python strings *)

Definition ord (c : ascii) : Z := Z.of_N (N_of_ascii c).

(** [str.isspace] on code points below 256. *)
Definition str_isspace (c : ascii) : bool :=
  let n := ord c in
  ((9 <=? n) && (n <=? 13)) || ((28 <=? n) && (n <=? 32))
  || (n =? 133) || (n =? 160).

(** The characters [int()] skips around a literal. *)
Definition int_isspace (c : ascii) : bool :=
  let n := ord c in
  ((9 <=? n) && (n <=? 13)) || (n =? 32) || (n =? 133) || (n =? 160).

(** [\d] on code points below 256. *)
Definition is_digit (c : ascii) : bool :=
  let n := ord c in (48 <=? n) && (n <=? 57).

Definition digit_val (c : ascii) : Z := ord c - 48.

Fixpoint lstrip (p : ascii -> bool) (s : string) : string :=
  match s with
  | String c r => if p c then lstrip p r else s
  | EmptyString => EmptyString
  end.

(** Drops the longest suffix of characters satisfying [p]. *)
Fixpoint rstrip (p : ascii -> bool) (s : string) : string :=
  match s with
  | String c r =>
      match rstrip p r with
      | EmptyString => if p c then EmptyString else String c EmptyString
      | r' => String c r'
      end
  | EmptyString => EmptyString
  end.

(** [s.strip()] *)
Definition strip (s : string) : string := rstrip str_isspace (lstrip str_isspace s).

(** [s.split(sep)] for a one-character separator. *)
Fixpoint split (sep : ascii) (s : string) : list string :=
  match s with
  | EmptyString => [EmptyString]
  | String c r =>
      if Ascii.eqb c sep then EmptyString :: split sep r
      else match split sep r with
           | p :: ps => String c p :: ps
           | [] => [String c EmptyString]
           end
  end.

(** [sep.join(parts)] *)
Fixpoint join (sep : string) (parts : list string) : string :=
  match parts with
  | [] => EmptyString
  | [p] => p
  | p :: ps => p ++ sep ++ join sep ps
  end.

(** The digits of a base-10 literal after its first digit: digits, each
    optionally preceded by one underscore. Returns the value and the rest. *)
Fixpoint int_digits (s : string) (acc : Z) : option (Z * string) :=
  match s with
  | String c r =>
      if is_digit c then int_digits r (10 * acc + digit_val c)
      else if Ascii.eqb c "_" then
        match r with
        | String d r' =>
            if is_digit d then int_digits r' (10 * acc + digit_val d) else None
        | EmptyString => None
        end
      else Some (acc, s)
  | EmptyString => Some (acc, s)
  end.

Definition int_unsigned (s : string) : option Z :=
  match s with
  | String c r =>
      if is_digit c then
        match int_digits r (digit_val c) with
        | Some (v, rest) =>
            match lstrip int_isspace rest with
            | EmptyString => Some v
            | _ => None
            end
        | None => None
        end
      else None
  | EmptyString => None
  end.

(** [int(s)] for a [str] argument, base 10; [None] stands for [ValueError]. *)
Definition py_int (s : string) : option Z :=
  match lstrip int_isspace s with
  | String "+" r => int_unsigned r
  | String "-" r => option_map Z.opp (int_unsigned r)
  | t => int_unsigned t
  end.

(** ** Versions, as the specification words them *)

Fixpoint all_digits (s : string) : bool :=
  match s with
  | String c r => is_digit c && all_digits r
  | EmptyString => true
  end.

(** A non-empty run of decimal digits. *)
Definition is_number (s : string) : bool :=
  match s with
  | EmptyString => false
  | _ => all_digits s
  end.

Fixpoint digits_value (s : string) (acc : Z) : Z :=
  match s with
  | String c r => digits_value r (10 * acc + digit_val c)
  | EmptyString => acc
  end.


(** A string of the form digits "." digits "." digits. *)
Definition is_dotted_triple (s : string) : bool :=
  match split "." s with
  | [a; b; c] => is_number a && is_number b && is_number c
  | _ => false
  end.


(** ** Exceptions, results and the I/O monad *)

(** The [Exception] subclasses the program can meet. *)
Inductive exn := ValueError | IndexError | KeyError | OSError | StructError.

(** How a call ends: with a value, with a raised [Exception], with
    [SystemExit] (which [except Exception] does not catch), or with the
    model's loop budget exhausted. *)
Inductive result (A : Type) :=
| Ok (a : A)
| Raise (e : exn)
| SysExit (code : Z)
| OutOfFuel.
Arguments Ok {A} a.
Arguments Raise {A} e.
Arguments SysExit {A} code.
Arguments OutOfFuel {A}.

Inductive event :=
| EvOpen (path : string)                  (* open(path, "r" or "rb") *)
| EvSeek (path : string) (off : nat)      (* f.seek(off) *)
| EvReadN (path : string) (n : nat)       (* f.read(n) *)
| EvReadAll (path : string)               (* f.read() *)
| EvOpenW (path : string)                 (* open(path, "w" or "wb") *)
| EvWrite (path : string) (data : string) (* f.write(data) *)
| EvExists (path : string)                (* os.path.exists(path) *)
| EvJsonLoad (path : string)              (* json.load of the opened file *)
| EvWalk (path : string)                  (* os.walk(path), consumed whole *)
| EvGlob (dir : string)                   (* glob.glob(dir/tdx_module_*.blob) *)
| EvCpuid                                 (* cpuid.cpuid(0x1) *)
| EvTime                                  (* time.time() *)
| EvSleep (secs : Z)                      (* time.sleep(secs) *)
| EvPrint (line : string)                 (* print(line) *)
| EvPrintExn (prefix : string) (e : exn). (* print(prefix + str(e)) *)

(** One record of the [tdx_module_releases] array of the mapping file, with
    its values at the types the [TdxModule] constructor is annotated with.
    [None] is a missing key or a JSON null ([dict.get] answers [None] for
    both). *)
Record Release := {
  rel_version : option string;
  rel_min_module_version_for_td_preserving : option string;
  rel_min_seamldr_versions : option (list string);
  rel_tdx_feature0 : option string
}.

(** What the platform answers. Every oracle takes the number of events
    performed so far. [allow_debug] is the program's global flag, set once
    from the command line before anything is evaluated. *)
Record Env := {
  allow_debug : bool;
  file_content : nat -> string -> option string; (* [None]: open fails *)
  io_ok : nat -> bool;            (* does this seek, read or write succeed *)
  open_w_ok : nat -> string -> bool;
  path_exists : nat -> string -> bool;
  json_load : nat -> string -> option (list Release);
  os_walk : nat -> string -> list (string * list string); (* (root, dirs) *)
  listdir : nat -> string -> list string;
  cpuid_1_eax : nat -> option Z;
  latency : nat -> Q              (* seconds the event takes *)
}.

Record World := { trace : list event; clock : Q }.

Definition M (A : Type) : Type := World -> result A * World.

Definition ret {A} (a : A) : M A := fun w => (Ok a, w).

Definition bind {A B} (c : M A) (k : A -> M B) : M B :=
  fun w =>
    match c w with
    | (Ok a, w') => k a w'
    | (Raise e, w') => (Raise e, w')
    | (SysExit n, w') => (SysExit n, w')
    | (OutOfFuel, w') => (OutOfFuel, w')
    end.

Notation "x <- c ;; k" := (bind c (fun x => k))
  (at level 100, c at next level, right associativity).
Notation "c ;; k" := (bind c (fun _ => k))
  (at level 100, right associativity).

Definition raise {A} (e : exn) : M A := fun w => (Raise e, w).

(** [sys.exit(code)] *)
Definition sys_exit {A} (code : Z) : M A := fun w => (SysExit code, w).

(** A value or exception computed without I/O. *)
Definition lift {A} (r : result A) : M A := fun w => (r, w).

(** [try: body  except Exception as e: handler e] *)
Definition try_except {A} (body : M A) (handler : exn -> M A) : M A :=
  fun w =>
    match body w with
    | (Raise e, w') => handler e w'
    | r => r
    end.

(** Runs [body] and hands back how it ended: the exception it raised, or
    its value. *)
Definition attempt {A} (body : M A) : M (exn + A) :=
  try_except (a <- body ;; ret (inr a)) (fun e => ret (inl e)).

Definition tick (w : World) : nat := length (trace w).

Definition of_option {A} (e : exn) (o : option A) : result A :=
  match o with Some a => Ok a | None => Raise e end.

(** Sequencing of computations without I/O. *)
Definition rbind {A B} (r : result A) (k : A -> result B) : result B :=
  match r with
  | Ok a => k a
  | Raise e => Raise e
  | SysExit n => SysExit n
  | OutOfFuel => OutOfFuel
  end.

(** [l[i]] *)
Definition index {A} (l : list A) (i : nat) : result A := of_option IndexError (l !! i).

(** [int(s)] *)
Definition int (s : string) : result Z := of_option ValueError (py_int s).

Section Program.
Context (env : Env).

(** Appends the event and lets the clock run for the time it takes. *)
Definition step (ev : event) (w : World) : World :=
  {| trace := trace w ++ [ev]; clock := (clock w + latency env (tick w))%Q |}.

Definition emit (ev : event) : M unit := fun w => (Ok tt, step ev w).

(** An event that raises [OSError] when the oracle [ok] says so. *)
Definition guarded (ev : event) (ok : nat -> bool) : M unit :=
  fun w => (if ok (tick w) then Ok tt else Raise OSError, step ev w).

Definition print (line : string) : M unit := emit (EvPrint line).
Definition print_exn (prefix : string) (e : exn) : M unit := emit (EvPrintExn prefix e).

(** *** Files *)

(** An open file: its content when it was opened, and the read position. *)
Record handle := { h_path : string; h_data : string; h_pos : nat }.

(** [open(path, "r")], [open(path, "rb")] *)
Definition open_r (path : string) : M handle :=
  fun w =>
    (match file_content env (tick w) path with
     | Some d => Ok {| h_path := path; h_data := d; h_pos := 0 |}
     | None => Raise OSError
     end, step (EvOpen path) w).

(** [f.seek(off)] *)
Definition seek (h : handle) (off : nat) : M handle :=
  guarded (EvSeek (h_path h) off) (io_ok env) ;;
  ret {| h_path := h_path h; h_data := h_data h; h_pos := off |}.

(** [f.read(n)]: the bytes left, at most [n] of them. *)
Definition read_n (h : handle) (n : nat) : M (string * handle) :=
  guarded (EvReadN (h_path h) n) (io_ok env) ;;
  let b := substring (h_pos h) n (h_data h) in
  ret (b, {| h_path := h_path h; h_data := h_data h;
             h_pos := (h_pos h + String.length b)%nat |}).

(** [f.read()] *)
Definition read_all (h : handle) : M string :=
  guarded (EvReadAll (h_path h)) (io_ok env) ;;
  ret (substring (h_pos h) (String.length (h_data h)) (h_data h)).

(** [with open(path, "w") as f: f.write(data)] *)
Definition write_file (path data : string) : M unit :=
  guarded (EvOpenW path) (fun n => open_w_ok env n path) ;;
  guarded (EvWrite path data) (io_ok env).

(** [struct.unpack("<I", b)[0]] *)
Definition unpack_le32 (b : string) : result Z :=
  match b with
  | String b0 (String b1 (String b2 (String b3 EmptyString))) =>
      Ok (Z.lor (ord b0) (Z.lor (Z.shiftl (ord b1) 8)
            (Z.lor (Z.shiftl (ord b2) 16) (Z.shiftl (ord b3) 24))))
  | _ => Raise StructError
  end.

(** *** Blob header reader *)

(** Reads four bytes and unpacks them; [ValueError] on a short read. *)
Definition read_u32 (f : handle) : M (Z * handle) :=
  bf <- read_n f 4 ;;
  if negb (String.length (fst bf) =? 4)%nat then raise ValueError
  else v <- lift (unpack_le32 (fst bf)) ;; ret (v, snd bf).

(** [entry & 0xFFFFFFF0]: the stepping bits are dropped. *)
Definition mask_stepping (entry : Z) : Z := Z.land entry 0xFFFFFFF0.

(** The part of the [try] block before the loop: the entry count and the
    file positioned on the first entry. *)
Definition table_header (blob_path : string) : M (Z * handle) :=
  f <- open_r blob_path ;;
  f <- seek f (4096 + 1024) ;;
  nf <- read_u32 f ;;
  f <- seek (snd nf) (4096 + 1028) ;;
  ret (fst nf, f).

(** The [for _ in range(num_entries)] loop. The list [acc] is the local
    [supported_CPU_family_model]: an exception leaves the loop and the list
    keeps what was appended to it. *)
Fixpoint read_entries (k : nat) (f : handle) (acc : list Z) : M (list Z * option exn) :=
  match k with
  | O => ret (acc, None)
  | S k' =>
      r <- attempt (read_u32 f) ;;
      match r with
      | inl e => ret (acc, Some e)
      | inr (entry, f') => read_entries k' f' (acc ++ [mask_stepping entry])
      end
  end.

Definition table_error : string := "Error checking compatibility with current system: ".

Definition get_supported_cpu_family_model (blob_path : string) : M (list Z) :=
  r <- attempt (table_header blob_path) ;;
  match r with
  | inl e => print_exn table_error e ;; ret []
  | inr (num_entries, f) =>
      r <- read_entries (Z.to_nat num_entries) f [] ;;
      match r with
      | (l, Some e) => print_exn table_error e ;; ret l
      | (l, None) => ret l
      end
  end.

Definition get_module_type (blob_path : string) : M (option Z) :=
  try_except
    (f <- open_r blob_path ;;
     f <- seek f (4096 + 12) ;;
     bf <- read_n f 4 ;;
     module_type <- lift (unpack_le32 (fst bf)) ;;
     ret (Some module_type))
    (fun e => print_exn "Error reading module type: " e ;; ret None).

(** *** Module catalog builder *)

Record TdxModule := {
  version : string;
  path : string;
  supported_CPU_family_model : list Z;
  min_module_version_for_td_preserving : string;
  min_seamldr_versions : list string;
  tdx_feature0 : string;
  type : Z
}.

(** [os.path.join(a, b)] *)
Definition path_join (a b : string) : string :=
  match b with
  | String "/" _ => b
  | _ =>
      match a with
      | EmptyString => b
      | _ => if String.prefix "/" (String.rev a) then a ++ b else a ++ "/" ++ b
      end
  end.

(** [os.path.basename(p)] *)
Definition basename (p : string) : string := default EmptyString (last (split "/" p)).

(** The longest run of digits at the head of [s], and what follows it. *)
Fixpoint span_digits (s : string) : string * string :=
  match s with
  | String c r =>
      if is_digit c then let (d, rest) := span_digits r in (String c d, rest)
      else (EmptyString, s)
  | EmptyString => (EmptyString, EmptyString)
  end.

(** The rest of [s] after the literal [p], when [s] starts with it. *)
Fixpoint strip_prefix (p s : string) : option string :=
  match p, s with
  | EmptyString, _ => Some s
  | String a p', String b s' => if Ascii.eqb a b then strip_prefix p' s' else None
  | String _ _, EmptyString => None
  end.

(** [\d+] at the head of [s]. *)
Definition match_number (s : string) : option (string * string) :=
  match span_digits s with
  | (EmptyString, _) => None
  | (d, rest) => Some (d, rest)
  end.

Definition newline : string := String (ascii_of_nat 10) EmptyString.

(** [re.match(r"^\d+\.\d+$", s)]; [$] also matches before a final newline. *)
Definition is_version_dir (s : string) : bool :=
  match match_number s with
  | Some (_, r1) =>
      match strip_prefix "." r1 with
      | Some r2 =>
          match match_number r2 with
          | Some (_, r3) => String.eqb r3 EmptyString || String.eqb r3 newline
          | None => false
          end
      | None => false
      end
  | None => false
  end.

(** [tdx_module_(\d+\.\d+\.\d+)\.blob] matched at the head of [s]: group 1. *)
Definition match_blob_name (s : string) : option string :=
  match strip_prefix "tdx_module_" s with
  | Some r0 =>
      match match_number r0 with
      | Some (a, r1) =>
          match strip_prefix "." r1 with
          | Some r2 =>
              match match_number r2 with
              | Some (b, r3) =>
                  match strip_prefix "." r3 with
                  | Some r4 =>
                      match match_number r4 with
                      | Some (c, r5) =>
                          match strip_prefix ".blob" r5 with
                          | Some _ => Some (a ++ "." ++ b ++ "." ++ c)
                          | None => None
                          end
                      | None => None
                      end
                  | None => None
                  end
              | None => None
              end
          | None => None
          end
      | None => None
      end
  | None => None
  end.

(** [re.search(r"tdx_module_(\d+\.\d+\.\d+)\.blob", s)]: the leftmost match. *)
Fixpoint search_blob_name (s : string) : option string :=
  match match_blob_name s with
  | Some v => Some v
  | None =>
      match s with
      | String _ r => search_blob_name r
      | EmptyString => None
      end
  end.

(** [fnmatch(name, "tdx_module_*.blob")] *)
Definition is_blob_name (name : string) : bool :=
  match strip_prefix "tdx_module_" name with
  | Some rest => String.prefix (String.rev ".blob") (String.rev rest)
  | None => false
  end.

(** [json.load] of the mapping file and its [tdx_module_releases] entry. *)
Definition load_releases (mapping_file : string) : M (list Release) :=
  fun w =>
    (of_option OSError (json_load env (tick w) mapping_file),
     step (EvJsonLoad mapping_file) w).

(** [{release['version']: release for release in ...}]: a later record
    replaces an earlier one of the same version. *)
Fixpoint releases_dict (rs : list Release) (d : gmap string Release)
  : result (gmap string Release) :=
  match rs with
  | [] => Ok d
  | r :: rs' =>
      match rel_version r with
      | Some v => releases_dict rs' (<[v := r]> d)
      | None => Raise KeyError
      end
  end.

(** The directories [os.walk] visits under [top], each with its
    sub-directory names. *)
Definition walk (top : string) : M (list (string * list string)) :=
  fun w => (Ok (os_walk env (tick w) top), step (EvWalk top) w).

Definition version_dirs_of (walked : list (string * list string)) : list string :=
  flat_map (fun rd => map (path_join (fst rd)) (List.filter is_version_dir (snd rd)))
           walked.

(** [glob.glob(os.path.join(version_path, "tdx_module_*.blob"))] *)
Definition glob_blobs (version_path : string) : M (list string) :=
  fun w =>
    (Ok (map (path_join version_path)
             (List.filter is_blob_name (listdir env (tick w) version_path))),
     step (EvGlob version_path) w).

(** The body of the loop over [blob_files]: the record to append, if any. *)
Definition examine_blob (releases_info : gmap string Release) (blob_file : string)
  : M (option TdxModule) :=
  match search_blob_name (basename blob_file) with
  | None => ret None
  | Some version =>
      supported <- get_supported_cpu_family_model blob_file ;;
      module_type <- get_module_type blob_file ;;
      match releases_info !! version with
      | None =>
          print ("Skipping module " ++ version ++ ": Missing release information in JSON.") ;;
          ret None
      | Some release_info =>
          match module_type,
                rel_min_module_version_for_td_preserving release_info,
                rel_min_seamldr_versions release_info,
                rel_tdx_feature0 release_info with
          | Some t, Some mv, Some sv, Some f0 =>
              ret (Some {| version := version; path := blob_file;
                           supported_CPU_family_model := supported;
                           min_module_version_for_td_preserving := mv;
                           min_seamldr_versions := sv;
                           tdx_feature0 := f0; type := t |})
          | _, _, _, _ =>
              print ("Skipping module " ++ version ++ ": Missing required information.") ;;
              ret None
          end
      end
  end.

Fixpoint collect_blobs (releases_info : gmap string Release)
    (blob_files : list string) (modules : list TdxModule) : M (list TdxModule) :=
  match blob_files with
  | [] => ret modules
  | blob_file :: rest =>
      r <- examine_blob releases_info blob_file ;;
      collect_blobs releases_info rest
        (match r with Some module => modules ++ [module] | None => modules end)
  end.

Fixpoint collect_dirs (releases_info : gmap string Release)
    (version_dirs : list string) (modules : list TdxModule) : M (list TdxModule) :=
  match version_dirs with
  | [] => ret modules
  | version_path :: rest =>
      blob_files <- glob_blobs version_path ;;
      modules <- collect_blobs releases_info blob_files modules ;;
      collect_dirs releases_info rest modules
  end.

(** Returns [None] where the source returns [None]. *)
Definition get_all_tdx_modules (directory : string) : M (option (list TdxModule)) :=
  try_except
    (let mapping_file := path_join directory "mapping_file.json" in
     let joined_files := path_join directory "joined_files" in
     json_data <- load_releases mapping_file ;;
     releases_info <- lift (releases_dict json_data ∅) ;;
     walked <- walk joined_files ;;
     modules <- collect_dirs releases_info (version_dirs_of walked) [] ;;
     ret (Some modules))
    (fun e => print_exn "Error reading all modules: " e ;; ret None).

(** *** Platform state *)

Definition FIRMWARE_PATH : string := "/sys/class/firmware/seamldr_upload".
Definition MODULE_PATH : string := "/sys/devices/faux/tdx_host".
Definition SEAMLDR_PATH : string := "/sys/devices/faux/tdx_host/seamldr".

Definition get_cpuid_1_eax : M (option Z) :=
  fun w =>
    match cpuid_1_eax env (tick w) with
    | Some eax => (Ok (Some eax), step EvCpuid w)
    | None =>
        (print_exn "Intel TDX module works for Intel CPUs only " OSError ;; ret None)
          (step EvCpuid w)
    end.

(** [with open(path, "r") as f: f.read().strip()] *)
Definition read_stripped (path : string) : M string :=
  f <- open_r path ;;
  s <- read_all f ;;
  ret (strip s).

Definition get_current_module_version : M (option string) :=
  try_except
    (version <- read_stripped (path_join MODULE_PATH "version") ;; ret (Some version))
    (fun e => print_exn "Error reading current module version: " e ;; ret None).

Definition get_current_seamldr_version : M (option string) :=
  try_except
    (version <- read_stripped (path_join SEAMLDR_PATH "version") ;; ret (Some version))
    (fun e => print_exn "Error reading current seamldr version: " e ;; ret None).

(** *** Compatibility evaluator *)

(** [a, b, c = map(int, s.split('.'))]: every way this fails is a
    [ValueError]. *)
Definition unpack3 (s : string) : result (Z * Z * Z) :=
  match split "." s with
  | [a; b; c] =>
      match py_int a, py_int b, py_int c with
      | Some x, Some y, Some z => Ok (x, y, z)
      | _, _, _ => Raise ValueError
      end
  | _ => Raise ValueError
  end.

(** The [for v in module.min_seamldr_versions] loop; [Ok false] is the loop
    running to its end. *)
Fixpoint seamldr_scan (seamldr_major seamldr_minor seamldr_update : Z)
    (versions : list string) : result bool :=
  match versions with
  | [] => Ok false
  | v :: rest =>
      match unpack3 v with
      | Ok (major, minor, update) =>
          if (major =? seamldr_major) && (minor =? seamldr_minor)
             && (update <=? seamldr_update)
          then Ok true
          else seamldr_scan seamldr_major seamldr_minor seamldr_update rest
      | Raise e => Raise e
      | SysExit n => SysExit n
      | OutOfFuel => OutOfFuel
      end
  end.

Definition is_compatible_with_seamldr (module : TdxModule) (seamldr_version : string)
  : M bool :=
  try_except
    (cur <- lift (unpack3 seamldr_version) ;;
     lift (seamldr_scan (fst (fst cur)) (snd (fst cur)) (snd cur)
             (min_seamldr_versions module)))
    (fun e => print_exn "Failed to check seamldr compatibility: " e ;; ret false).

Definition is_compatible (module : TdxModule) : M bool :=
  seamldr_version <- get_current_seamldr_version ;;
  match seamldr_version with
  | None => ret false
  | Some seamldr_version =>
      ok <- is_compatible_with_seamldr module seamldr_version ;;
      if negb ok then ret false
      else
        cpuid_1_eax <- get_cpuid_1_eax ;;
        match cpuid_1_eax with
        | None => ret false
        | Some eax =>
            ret (bool_decide (mask_stepping eax ∈ supported_CPU_family_model module))
        end
  end.

(** [module.type & (1 << 31)]; used as a truth value. *)
Definition is_debug (module : TdxModule) : Z := Z.land (type module) (Z.shiftl 1 31).

Definition truthy (n : Z) : bool := negb (n =? 0).

(** [int(s.split('.')[2])] *)
Definition update_of (s : string) : result Z :=
  rbind (index (split "." s) 2) int.

(** ['.'.join(s.split('.')[:2])] *)
Definition major_minor_of (s : string) : string := join "." (take 2 (split "." s)).

(** Lines 294 to 301: the comparison, once the current version is read. *)
Definition td_preserving_verdict (module : TdxModule) (current_version : string)
  : result bool :=
  let current_major_minor := major_minor_of current_version in
  rbind (update_of current_version) (fun current_update =>
  let module_major_minor := major_minor_of (version module) in
  rbind (update_of (version module)) (fun module_update =>
  rbind (update_of (min_module_version_for_td_preserving module))
    (fun min_preserving_update =>
  Ok (String.eqb module_major_minor current_major_minor
      && (current_update <=? module_update)
      && (min_preserving_update <=? current_update))))).

Definition is_td_preserving_capable (module : TdxModule) : M bool :=
  if truthy (is_debug module) && negb (allow_debug env) then ret false
  else
    current_version <- get_current_module_version ;;
    match current_version with
    | None => ret false
    | Some EmptyString => ret false
    | Some current_version => lift (td_preserving_verdict module current_version)
    end.

(** *** Module selector *)

(** [[module for module in modules if is_td_preserving_capable(module)]] *)
Fixpoint filter_capable (modules : list TdxModule) : M (list TdxModule) :=
  match modules with
  | [] => ret []
  | module :: rest =>
      capable <- is_td_preserving_capable module ;;
      kept <- filter_capable rest ;;
      ret (if capable then module :: kept else kept)
  end.

(** The keys [list.sort] computes, one per element, before it sorts. *)
Fixpoint sort_keys (modules : list TdxModule) : result (list (Z * TdxModule)) :=
  match modules with
  | [] => Ok []
  | m :: rest =>
      rbind (update_of (version m)) (fun k =>
      rbind (sort_keys rest) (fun l => Ok ((k, m) :: l)))
  end.

(** Puts [x] in front of the first element whose key is not above its own. *)
Fixpoint insert_desc (x : Z * TdxModule) (l : list (Z * TdxModule))
  : list (Z * TdxModule) :=
  match l with
  | [] => [x]
  | y :: l' => if fst x <? fst y then y :: insert_desc x l' else x :: l
  end.

(** [sort(key=..., reverse=True)]: descending by key, and stable: elements
    of equal key keep the order they had. *)
Definition sort_desc (l : list (Z * TdxModule)) : list (Z * TdxModule) :=
  foldr insert_desc [] l.

Definition find_newest_tdx_module (modules : list TdxModule) : M (option TdxModule) :=
  td_preserving_modules <- filter_capable modules ;;
  keyed <- lift (sort_keys td_preserving_modules) ;;
  ret (head (map snd (sort_desc keyed))).

(** *** Firmware loader *)

(** What [update_tdx_module] returns: [None], or [False] on the debug gate. *)
Inductive retval := RetNone | RetFalse.

Definition loading_node : string := FIRMWARE_PATH ++ "/loading".
Definition data_node : string := FIRMWARE_PATH ++ "/data".
Definition status_node : string := FIRMWARE_PATH ++ "/status".
Definition error_node : string := FIRMWARE_PATH ++ "/error".

Definition path_exists_ (p : string) : M bool :=
  fun w => (Ok (path_exists env (tick w) p), step (EvExists p) w).

(** [time.time()], in seconds. *)
Definition time : M Q :=
  fun w => let w' := step EvTime w in (Ok (clock w'), w').

(** [time.sleep(secs)]: at least [secs] seconds pass. *)
Definition sleep (secs : Z) : M unit :=
  fun w =>
    let w' := step (EvSleep secs) w in
    (Ok tt, {| trace := trace w'; clock := (clock w' + inject_Z secs)%Q |}).

(** [f"{v}"] for a value that may be [None]. *)
Definition show (v : option string) : string := default "None" v.

Definition timeout : Z := 10.

(** Lines 366 to 372: arm, transfer the blob, complete. *)
Definition transfer (module : TdxModule) : M unit :=
  write_file loading_node "1" ;;
  guarded (EvOpenW data_node) (fun n => open_w_ok env n data_node) ;;
  blob <- open_r (path module) ;;
  bytes <- read_all blob ;;
  guarded (EvWrite data_node bytes) (io_ok env) ;;
  write_file loading_node "0".

Definition timeout_message : string :=
  "Error: Timeout while waiting for status to become 'idle'".

(** The [while True] loop; [fuel] bounds the number of status reads. *)
Fixpoint poll_status (fuel : nat) (start_time : Q) : M unit :=
  match fuel with
  | O => fun w => (OutOfFuel, w)
  | S fuel' =>
      status <- read_stripped status_node ;;
      if String.eqb status "idle" then ret tt
      else
        now <- time ;;
        if negb (Qle_bool (now - start_time) (inject_Z timeout))
        then print timeout_message ;; sys_exit 1
        else sleep 1 ;; poll_status fuel' start_time
  end.

(** Lines 387 to 395: what follows the loop once the status is idle. *)
Definition conclude (prev_version : option string) : M retval :=
  error <- read_stripped error_node ;;
  if negb (String.eqb error EmptyString)
  then print ("Firmware update failed " ++ error) ;; sys_exit 1
  else
    curr_version <- get_current_module_version ;;
    print ("Upgrade Intel TDX module from " ++ show prev_version
           ++ " to " ++ show curr_version) ;;
    ret RetNone.

(** The [try] block up to the end of the loop: it returns once the status
    node has read "idle". *)
Definition until_idle (fuel : nat) (module : TdxModule) : M unit :=
  transfer module ;;
  start_time <- time ;;
  poll_status fuel start_time.

(** The [try] block of [update_tdx_module] with its handler. *)
Definition install (fuel : nat) (module : TdxModule) (prev_version : option string)
  : M retval :=
  try_except
    (until_idle fuel module ;; conclude prev_version)
    (fun e => print_exn "Error during installation: " e ;; ret RetNone).

(** [module.path] is a string in every record the catalog builds, so of the
    first test only [module is None] is left. *)
Definition update_tdx_module (fuel : nat) (module : option TdxModule) : M retval :=
  match module with
  | None => print "No Intel TDX module found to update." ;; ret RetNone
  | Some module =>
      compatible <- is_compatible module ;;
      if negb compatible
      then print ("incompatible module " ++ version module) ;; ret RetNone
      else if truthy (is_debug module) && negb (allow_debug env)
      then print "Cannot load debug module. Try --allow_debug" ;; ret RetFalse
      else
        capable <- is_td_preserving_capable module ;;
        if negb capable
        then print ("not td_preserving-capable " ++ version module) ;; ret RetNone
        else
          present <- path_exists_ FIRMWARE_PATH ;;
          if negb present
          then print ("Error: " ++ FIRMWARE_PATH ++ " does not exist.") ;; sys_exit 1
          else
            prev_version <- get_current_module_version ;;
            print ("Install module " ++ path module) ;;
            install fuel module prev_version
  end.

End Program.

(** ** Sample data *)

(** A platform on which every read fails. *)
Definition silent_env : Env :=
  {| allow_debug := false;
     file_content := fun _ _ => None;
     io_ok := fun _ => true;
     open_w_ok := fun _ _ => true;
     path_exists := fun _ _ => false;
     json_load := fun _ _ => None;
     os_walk := fun _ _ => [];
     listdir := fun _ _ => [];
     cpuid_1_eax := fun _ => None;
     latency := fun _ => 0%Q |}.

Definition start_world : World := {| trace := []; clock := 0%Q |}.

(** A production module of the given version and metadata. *)
Definition sample_module (v min_td : string) (min_seamldr : list string) : TdxModule :=
  {| version := v;
     path := "joined_files/1.5/tdx_module_" ++ v ++ ".blob";
     supported_CPU_family_model := [0x000806F0];
     min_module_version_for_td_preserving := min_td;
     min_seamldr_versions := min_seamldr;
     tdx_feature0 := "0x0";
     type := 0 |}.

(** A platform whose module version node holds [module_version] and whose
    seamldr is 2.1.5. *)
Definition sample_platform (module_version : string) : Env :=
  {| allow_debug := false;
     file_content := fun _ p =>
       if String.eqb p (path_join MODULE_PATH "version")
       then Some (module_version ++ newline)
       else if String.eqb p (path_join SEAMLDR_PATH "version")
       then Some ("2.1.5" ++ newline)
       else None;
     io_ok := fun _ => true;
     open_w_ok := fun _ _ => true;
     path_exists := fun _ _ => true;
     json_load := fun _ _ => None;
     os_walk := fun _ _ => [];
     listdir := fun _ _ => [];
     cpuid_1_eax := fun _ => Some 0x000806F8;
     latency := fun _ => 0%Q |}.

(** Whether entry [v] of a minimum-version list admits the current triple. *)
Definition entry_admits (v : string) (cur : Z * Z * Z) : bool :=
  match unpack3 v with
  | Ok (a, b, u) => (a =? fst (fst cur)) && (b =? snd (fst cur)) && (u <=? snd cur)
  | _ => false
  end.

(** ** Selection, as the specification words it *)

(** The verdict of [is_td_preserving_capable] as a function of what the
    module version node reads ([None]: the read fails). *)
Definition capability (allow : bool) (current : option string) (m : TdxModule)
  : result bool :=
  if truthy (is_debug m) && negb allow then Ok false
  else match current with
       | None => Ok false
       | Some EmptyString => Ok false
       | Some cv => td_preserving_verdict m cv
       end.




(** ** The table of a blob, as the specification words it *)

(** The first [k] complete little-endian 32-bit words of [data] from byte
    [pos] on; the list stops where the data does. *)
Fixpoint words_at (k : nat) (data : string) (pos : nat) : list Z :=
  match k with
  | O => []
  | S k' =>
      match unpack_le32 (substring pos 4 data) with
      | Ok v => v :: words_at k' data (pos + 4)
      | _ => []
      end
  end.

(** [n] zero bytes. *)
Fixpoint zeros (n : nat) : string :=
  match n with
  | O => EmptyString
  | S n' => String Ascii.zero (zeros n')
  end.

Definition byte_of (z : Z) : ascii := ascii_of_N (Z.to_N (z mod 256)).

(** [struct.pack("<I", z)] *)
Definition pack_le32 (z : Z) : string :=
  String (byte_of z) (String (byte_of (Z.shiftr z 8))
    (String (byte_of (Z.shiftr z 16)) (String (byte_of (Z.shiftr z 24)) EmptyString))).

(** A blob whose header gives [module_type] and announces [count] entries,
    followed by the bytes [table]. *)
Definition sample_blob (module_type count : Z) (table : string) : string :=
  zeros (4096 + 12) ++ pack_le32 module_type ++ zeros (1024 - 16)
  ++ pack_le32 count ++ table.

(** A platform that holds one blob, at [blob_path]. *)
Definition blob_env (blob_path content : string) : Env :=
  {| allow_debug := false;
     file_content := fun _ p => if String.eqb p blob_path then Some content else None;
     io_ok := fun _ => true;
     open_w_ok := fun _ _ => true;
     path_exists := fun _ _ => true;
     json_load := fun _ _ => None;
     os_walk := fun _ _ => [];
     listdir := fun _ _ => [];
     cpuid_1_eax := fun _ => None;
     latency := fun _ => 0%Q |}.

(** ** The catalog invariant *)

(** What the specification requires of a catalog record built from the
    directory [directory]: its version is the one found in the name of its
    blob, its type was read from that blob's header, and a release record of
    the mapping file, of exactly that version, supplies its three metadata
    fields. *)
Definition catalog_record_ok (env : Env) (directory : string) (m : TdxModule) : Prop :=
  search_blob_name (basename (path m)) = Some (version m)
  /\ is_dotted_triple (version m) = true
  /\ (exists t content,
        file_content env t (path m) = Some content
        /\ unpack_le32 (substring (4096 + 12) 4 content) = Ok (type m))
  /\ (exists t releases r,
        json_load env t (path_join directory "mapping_file.json") = Some releases
        /\ r ∈ releases
        /\ rel_version r = Some (version m)
        /\ rel_min_module_version_for_td_preserving r
           = Some (min_module_version_for_td_preserving m)
        /\ rel_min_seamldr_versions r = Some (min_seamldr_versions m)
        /\ rel_tdx_feature0 r = Some (tdx_feature0 m)).

Definition sample_release (v : string) : Release :=
  {| rel_version := Some v;
     rel_min_module_version_for_td_preserving := Some "1.5.01";
     rel_min_seamldr_versions := Some ["2.1.3"];
     rel_tdx_feature0 := Some "0x0" |}.

(** A repository with the blobs 1.5.06 and 1.5.07 and release records for
    1.5.06 and for 1.5.08, the latter without [tdx_feature0]. *)
Definition catalog_env : Env :=
  {| allow_debug := false;
     file_content := fun _ p =>
       if String.prefix "repo/joined_files/1.5/tdx_module_" p
       then Some (sample_blob 0 1 (pack_le32 0x000806F8))
       else None;
     io_ok := fun _ => true;
     open_w_ok := fun _ _ => true;
     path_exists := fun _ _ => true;
     json_load := fun _ p =>
       if String.eqb p "repo/mapping_file.json"
       then Some [sample_release "1.5.06";
                  {| rel_version := Some "1.5.08";
                     rel_min_module_version_for_td_preserving := Some "1.5.01";
                     rel_min_seamldr_versions := Some ["2.1.3"];
                     rel_tdx_feature0 := None |}]
       else None;
     os_walk := fun _ p =>
       if String.eqb p "repo/joined_files"
       then [("repo/joined_files", ["1.5"; "notes"]); ("repo/joined_files/1.5", []);
             ("repo/joined_files/notes", [])]
       else [];
     listdir := fun _ p =>
       if String.eqb p "repo/joined_files/1.5"
       then ["tdx_module_1.5.06.blob"; "tdx_module_1.5.07.blob"; "README.md"]
       else [];
     cpuid_1_eax := fun _ => Some 0x000806F8;
     latency := fun _ => 0%Q |}.

(** ** Observing the loader *)

(** The file an event is about. *)
Definition event_path (ev : event) : option string :=
  match ev with
  | EvOpen p | EvSeek p _ | EvReadN p _ | EvReadAll p | EvOpenW p | EvWrite p _
  | EvExists p | EvJsonLoad p | EvWalk p | EvGlob p => Some p
  | EvCpuid | EvTime | EvSleep _ | EvPrint _ | EvPrintExn _ _ => None
  end.

(** The event is about the control interface: its root or a node under it. *)
Definition touches_control (ev : event) : bool :=
  match event_path ev with
  | Some p => String.prefix FIRMWARE_PATH p
  | None => false
  end.

(** Run from [w], the computation adds only events that leave the control
    interface alone. *)
Definition quiet_from {A} (c : M A) (w : World) : Prop :=
  exists evs,
    trace (snd (c w)) = (trace w ++ evs)%list
    /\ Forall (fun ev => touches_control ev = false) evs.

Definition quiet {A} (c : M A) : Prop := forall w, quiet_from c w.

(** The events of the polling loop. *)
Definition poll_event (ev : event) : Prop :=
  ev = EvOpen status_node \/ ev = EvReadAll status_node \/ ev = EvTime
  \/ ev = EvSleep 1 \/ ev = EvPrint timeout_message.

(** The line printed on success is among the events. *)
Definition reports_success (evs : list event) : Prop :=
  exists prev curr,
    EvPrint ("Upgrade Intel TDX module from " ++ prev ++ " to " ++ curr) ∈ evs.

(** A platform running module 1.5.10 and seamldr 2.1.5 whose status node
    reads "busy" until event number [idle_from] and "idle" from then on,
    and whose error node holds [error]. Sleeps last exactly as asked and
    nothing else takes time. *)
Definition loader_env (idle_from : nat) (error : string) : Env :=
  {| allow_debug := false;
     file_content := fun t p =>
       if String.eqb p (path_join MODULE_PATH "version") then Some ("1.5.10" ++ newline)
       else if String.eqb p (path_join SEAMLDR_PATH "version") then Some ("2.1.5" ++ newline)
       else if String.eqb p status_node
       then Some (if (t <? idle_from)%nat then "busy" ++ newline else "idle" ++ newline)
       else if String.eqb p error_node then Some error
       else if String.prefix "joined_files/" p then Some "blob bytes"
       else None;
     io_ok := fun _ => true;
     open_w_ok := fun _ _ => true;
     path_exists := fun _ _ => true;
     json_load := fun _ _ => None;
     os_walk := fun _ _ => [];
     listdir := fun _ _ => [];
     cpuid_1_eax := fun _ => Some 0x000806F8;
     latency := fun _ => 0%Q |}.

(** The same platform with a status node that never leaves "busy". *)
Definition busy_env : Env :=
  {| allow_debug := false;
     file_content := fun t p =>
       if String.eqb p status_node then Some ("busy" ++ newline)
       else file_content (loader_env 0 "") t p;
     io_ok := fun _ => true;
     open_w_ok := fun _ _ => true;
     path_exists := fun _ _ => true;
     json_load := fun _ _ => None;
     os_walk := fun _ _ => [];
     listdir := fun _ _ => [];
     cpuid_1_eax := fun _ => Some 0x000806F8;
     latency := fun _ => 0%Q |}.

(** ** Listing the modules *)

(** [tuple(map(int, s.split('.')))]; the first part that is not an integer
    raises [ValueError]. *)
Fixpoint int_all (parts : list string) : result (list Z) :=
  match parts with
  | [] => Ok []
  | p :: rest => rbind (int p) (fun x => rbind (int_all rest) (fun xs => Ok (x :: xs)))
  end.

Definition version_tuple (s : string) : result (list Z) := int_all (split "." s).

(** [a < b] on tuples of integers: the first differing position decides, and
    a proper prefix is smaller. *)
Fixpoint tuple_lt (a b : list Z) : bool :=
  match a, b with
  | [], [] => false
  | [], _ :: _ => true
  | _ :: _, [] => false
  | x :: a', y :: b' =>
      if x <? y then true else if y <? x then false else tuple_lt a' b'
  end.

(** The keys [list.sort] computes, one per element, before it sorts. *)
Fixpoint version_keys (modules : list TdxModule) : result (list (list Z * TdxModule)) :=
  match modules with
  | [] => Ok []
  | m :: rest =>
      rbind (version_tuple (version m)) (fun k =>
      rbind (version_keys rest) (fun l => Ok ((k, m) :: l)))
  end.

Fixpoint insert_by_version (x : list Z * TdxModule) (l : list (list Z * TdxModule))
  : list (list Z * TdxModule) :=
  match l with
  | [] => [x]
  | y :: l' => if tuple_lt (fst x) (fst y) then y :: insert_by_version x l' else x :: l
  end.

(** [sort(key=..., reverse=True)] on version tuples: descending and stable. *)
Definition sort_by_version (l : list (list Z * TdxModule)) : list (list Z * TdxModule) :=
  foldr insert_by_version [] l.

(** [f"{module.version} {debug_status}{td_preserving_capable_status}"] *)
Definition status_line (module : TdxModule) (capable : bool) : string :=
  version module ++ " "
  ++ (if truthy (is_debug module) then "[debug]" else "")
  ++ (if negb capable then "[TD-Preserving-incapable]" else "").

Section Listing.
Context (env : Env).

(** The [for module in modules] loop of [list_tdx_modules]. *)
Fixpoint print_modules (modules : list TdxModule) : M unit :=
  match modules with
  | [] => ret tt
  | module :: rest =>
      capable <- is_td_preserving_capable env module ;;
      print env (status_line module capable) ;;
      print_modules rest
  end.

(** The source returns nothing and sorts [modules] in place; the value here
    is the list as the call leaves it. *)
Definition list_tdx_modules (modules : list TdxModule) : M (list TdxModule) :=
  keyed <- lift (version_keys modules) ;;
  let modules := map snd (sort_by_version keyed) in
  print_modules modules ;;
  ret modules.

End Listing.



(** ** The command line driver *)

(** What [argparse] hands to [main]: [--list], [--update] (absent, given
    alone, or given with a version) and [--allow_debug]. *)
Record Args := {
  arg_list : bool;
  arg_update : option (option string);
  arg_allow_debug : bool
}.

(** [allow_debug = args.allow_debug]: the global flag every later call
    reads. *)
Definition set_allow_debug (flag : bool) (env : Env) : Env :=
  {| allow_debug := flag;
     file_content := file_content env;
     io_ok := io_ok env;
     open_w_ok := open_w_ok env;
     path_exists := path_exists env;
     json_load := json_load env;
     os_walk := os_walk env;
     listdir := listdir env;
     cpuid_1_eax := cpuid_1_eax env;
     latency := latency env |}.

#[global] Instance TdxModule_eq_dec : EqDecision TdxModule.
Proof. solve_decision. Defined.

(** [main], after the arguments are parsed. [module_dir] is the directory
    of the script and [help_text] what [parser.print_help()] prints.
    Records are compared by value where the source compares objects; the
    records of one catalog differ by their paths. *)
Definition main (env0 : Env) (module_dir help_text : string) (fuel : nat) (args : Args)
  : M unit :=
  let env := set_allow_debug (arg_allow_debug args) env0 in
  modules <- get_all_tdx_modules env module_dir ;;
  match modules with
  | None | Some [] => print env "no Intel TDX module found" ;; sys_exit 1
  | Some modules =>
      if arg_list args then list_tdx_modules env modules ;; ret tt
      else
        match arg_update args with
        | Some update =>
            newest_module <- find_newest_tdx_module env modules ;;
            match update with
            | None =>
                match newest_module with
                | Some m => update_tdx_module env fuel (Some m) ;; ret tt
                | None => print env "No newer Intel TDX module found for update."
                end
            | Some v =>
                match List.find (fun module => String.eqb (version module) v) modules with
                | None =>
                    print env ("Module version " ++ v ++ " does not exist.") ;;
                    sys_exit 1
                | Some specified_module =>
                    (if bool_decide (Some specified_module = newest_module)
                     then ret tt
                     else print env ("Specified module version " ++ v
                                     ++ " is not the newest version.")) ;;
                    update_tdx_module env fuel (Some specified_module) ;;
                    ret tt
                end
            end
        | None => print env help_text ;; sys_exit 1
        end
  end.

(** The event opens a file for writing or writes to it. *)
Definition is_write (ev : event) : bool :=
  match ev with
  | EvOpenW _ | EvWrite _ _ => true
  | _ => false
  end.

(** Run from [w], the computation writes to no file. *)
Definition read_only_from {A} (c : M A) (w : World) : Prop :=
  exists evs,
    trace (snd (c w)) = (trace w ++ evs)%list
    /\ Forall (fun ev => is_write ev = false) evs.

Definition read_only {A} (c : M A) : Prop := forall w, read_only_from c w.

(** A repository like [catalog_env]'s on a platform like [loader_env]'s. *)
Definition driver_env : Env :=
  {| allow_debug := false;
     file_content := fun t p =>
       match file_content catalog_env t p with
       | Some d => Some d
       | None => file_content (loader_env 0 "") t p
       end;
     io_ok := fun _ => true;
     open_w_ok := fun _ _ => true;
     path_exists := fun _ _ => true;
     json_load := json_load catalog_env;
     os_walk := os_walk catalog_env;
     listdir := listdir catalog_env;
     cpuid_1_eax := fun _ => Some 0x000806F8;
     latency := fun _ => 0%Q |}.

(** ** Blobs left out of the catalog *)

(** One of the two lines with which [get_all_tdx_modules] reports that it
    leaves the blob of this version out. *)
Definition skip_line (version line : string) : Prop :=
  line = "Skipping module " ++ version ++ ": Missing release information in JSON."
  \/ line = "Skipping module " ++ version ++ ": Missing required information.".

(** The events of reading a blob: opening, positioning and reading it, and
    the line printed for an exception. *)
Definition blob_access (ev : event) : bool :=
  match ev with
  | EvOpen _ | EvSeek _ _ | EvReadN _ _ | EvPrintExn _ _ => true
  | _ => false
  end.

(** Every event of the computation is of the kind [P]. *)
Definition emits_only (P : event -> bool) {A} (c : M A) : Prop :=
  forall w, exists evs,
    trace (snd (c w)) = (trace w ++ evs)%list /\ Forall (fun ev => P ev = true) evs.

(** The catalog has a record of this path and version. *)
Definition catalogued (ms : list TdxModule) (blob_file version_ : string) : Prop :=
  exists m, m ∈ ms /\ path m = blob_file /\ version m = version_.

(** A line reporting that this version is left out is among the events. *)
Definition reported (evs : list event) (version_ : string) : Prop :=
  exists line, skip_line version_ line /\ EvPrint line ∈ evs.

(** * Properties *)

Example strip_ex : strip (" 1.5.10" ++ String (ascii_of_nat 10) "") = "1.5.10".
Proof. reflexivity. Qed.
Example split_ex : split "." "1..5" = ["1"; ""; "5"].
Proof. reflexivity. Qed.
Example int_ex1 : py_int " +1_0 " = Some 10.
Proof. reflexivity. Qed.
Example int_ex2 : py_int "1__0" = None.
Proof. reflexivity. Qed.
Example int_ex3 : py_int "-05" = Some (-5).
Proof. reflexivity. Qed.
Example int_ex4 : py_int "x" = None.
Proof. reflexivity. Qed.

(** ** Decimal literals *)






Lemma digits_value_nonneg s acc : 0 <= acc -> all_digits s = true -> 0 <= digits_value s acc.
Proof.
  revert acc. induction s as [|c r IH]; intros acc Ha H; simpl in *; [exact Ha|].
  apply andb_true_iff in H as [Hc Hr]. apply IH; [|exact Hr].
  unfold is_digit in Hc. apply andb_true_iff in Hc as [H1 H2].
  apply Z.leb_le in H1. unfold digit_val. lia.
Qed.


(** ** Seamldr compatibility *)

Lemma unpack3_cases s : unpack3 s = Raise ValueError \/ exists t, unpack3 s = Ok t.
Proof.
  unfold unpack3.
  destruct (split "." s) as [|a [|b [|c [|? ?]]]]; auto.
  destruct (py_int a), (py_int b), (py_int c); eauto.
Qed.

Lemma seamldr_scan_cases a b u vs :
  seamldr_scan a b u vs = Raise ValueError \/ exists r, seamldr_scan a b u vs = Ok r.
Proof.
  induction vs as [|v vs IH]; simpl; [eauto|].
  destruct (unpack3_cases v) as [-> | [[[x y] z] ->]]; [auto|].
  destruct (_ && _); eauto.
Qed.

(** What a call does, in terms of the two pure steps of its [try] block. *)
Lemma is_compatible_with_seamldr_run env m cur w :
  is_compatible_with_seamldr env m cur w =
  match unpack3 cur with
  | Ok c =>
      match seamldr_scan (fst (fst c)) (snd (fst c)) (snd c) (min_seamldr_versions m) with
      | Ok r => (Ok r, w)
      | _ => (Ok false,
              step env (EvPrintExn "Failed to check seamldr compatibility: " ValueError) w)
      end
  | _ => (Ok false,
          step env (EvPrintExn "Failed to check seamldr compatibility: " ValueError) w)
  end.
Proof.
  unfold is_compatible_with_seamldr, try_except, bind, lift.
  destruct (unpack3_cases cur) as [-> | [c ->]]; [reflexivity|].
  destruct (seamldr_scan_cases (fst (fst c)) (snd (fst c)) (snd c)
              (min_seamldr_versions m)) as [-> | [r ->]]; reflexivity.
Qed.

Lemma seamldr_scan_true a b u vs :
  seamldr_scan a b u vs = Ok true ->
  exists v, v ∈ vs /\ entry_admits v (a, b, u) = true.
Proof.
  induction vs as [|v vs IH]; simpl; [discriminate|].
  destruct (unpack3 v) as [[[x y] z]| | |] eqn:E; try discriminate.
  destruct ((x =? a) && (y =? b) && (z <=? u)) eqn:T.
  - intros _. exists v. split; [left|]. unfold entry_admits. rewrite E. exact T.
  - intros H. destruct (IH H) as (v' & Hin & Hv'). exists v'. split; [right|]; assumption.
Qed.









(** ** TD-preserving capability *)



Lemma update_of_cases s :
  (exists e, update_of s = Raise e) \/ exists z, update_of s = Ok z.
Proof.
  unfold update_of, index, int.
  destruct (split "." s !! 2%nat) as [p|]; simpl; [|eauto].
  destruct (py_int p); simpl; eauto.
Qed.


Lemma is_td_preserving_capable_read env m w cur w1 :
  truthy (is_debug m) && negb (allow_debug env) = false ->
  get_current_module_version env w = (Ok (Some cur), w1) ->
  cur <> EmptyString ->
  is_td_preserving_capable env m w = (td_preserving_verdict m cur, w1).
Proof.
  intros Hg Hr Hne. unfold is_td_preserving_capable. rewrite Hg.
  unfold bind. rewrite Hr. destruct cur; [congruence|reflexivity].
Qed.

Lemma debug_gate_passes m env :
  truthy (is_debug m) && negb (allow_debug env) = false <->
  truthy (is_debug m) = false \/ allow_debug env = true.
Proof.
  destruct (truthy (is_debug m)), (allow_debug env); simpl; intuition congruence.
Qed.



(** C10: a current module version that is read but has no third component
    ("1.5"), or whose third component is not an integer ("1.5.x"), makes
    [is_td_preserving_capable] raise instead of returning [False]. Whenever
    the debug gate is passed, a non-empty current version is read and the
    call returns, the current version has a third dotted component that
    [int()] accepts. *)
Theorem td_preserving_capable_raises :
  (forall w,
      fst (is_td_preserving_capable (sample_platform "1.5")
             (sample_module "1.5.12" "1.5.8" ["2.1.3"]) w) = Raise IndexError)
  /\ (forall w,
        fst (is_td_preserving_capable (sample_platform "1.5.x")
               (sample_module "1.5.12" "1.5.8" ["2.1.3"]) w) = Raise ValueError)
  /\ (forall env m w cur r,
        truthy (is_debug m) = false \/ allow_debug env = true ->
        fst (get_current_module_version env w) = Ok (Some cur) ->
        cur <> EmptyString ->
        fst (is_td_preserving_capable env m w) = Ok r ->
        exists p z, split "." cur !! 2%nat = Some p /\ py_int p = Some z).
Proof.
  split; [intros w; reflexivity|]. split; [intros w; reflexivity|].
  intros env m w cur r Hg Hread Hne Hret.
  apply debug_gate_passes in Hg.
  destruct (get_current_module_version env w) as [r0 w1] eqn:Hr.
  simpl in Hread. subst r0.
  rewrite (is_td_preserving_capable_read env m w cur w1 Hg Hr Hne) in Hret.
  simpl in Hret. unfold td_preserving_verdict, update_of at 1, index, int in Hret.
  destruct (split "." cur !! 2%nat) as [p|]; [|discriminate].
  simpl in Hret. destruct (py_int p) as [z|] eqn:Hz; [|discriminate].
  exists p, z. split; [reflexivity|exact Hz].
Qed.

Lemma td_preserving_capable_raises_witness :
  exists p z, split "." "1.5.10" !! 2%nat = Some p /\ py_int p = Some z.
Proof.
  apply (proj2 (proj2 td_preserving_capable_raises) (sample_platform "1.5.10")
           (sample_module "1.5.12" "1.5.8" ["2.1.3"]) start_world "1.5.10" true).
  - left. reflexivity.
  - reflexivity.
  - discriminate.
  - reflexivity.
Defined.

(** ** Newest capable module *)


Lemma capability_cases allow cv m :
  (exists e, capability allow cv m = Raise e) \/ exists b, capability allow cv m = Ok b.
Proof.
  unfold capability. destruct (_ && _); [eauto|].
  destruct cv as [[|c s]|]; eauto.
  unfold td_preserving_verdict, rbind.
  destruct (update_of_cases (String c s)) as [[e ->] | [z ->]]; [eauto|].
  destruct (update_of_cases (version m)) as [[e ->] | [z' ->]]; [eauto|].
  destruct (update_of_cases (min_module_version_for_td_preserving m))
    as [[e ->] | [z'' ->]]; eauto.
Qed.











(** ** Supported CPU table *)

Lemma unpack_le32_length b : (String.length b =? 4)%nat = true <-> exists v, unpack_le32 b = Ok v.
Proof.
  destruct b as [|b0 [|b1 [|b2 [|b3 [|b4 r]]]]]; simpl; split;
    try discriminate; try (intros [v Hv]; discriminate); eauto.
Qed.

Lemma tick_step env ev w : tick (step env ev w) = S (tick w).
Proof. unfold tick, step. simpl. rewrite length_app. simpl. lia. Qed.

(** One four-byte read: it fails on an I/O fault and on a short read. *)
Lemma read_u32_run env f w :
  read_u32 env f w =
  (if io_ok env (tick w)
   then match unpack_le32 (substring (h_pos f) 4 (h_data f)) with
        | Ok v => Ok (v, {| h_path := h_path f; h_data := h_data f;
                            h_pos := (h_pos f + 4)%nat |})
        | _ => Raise ValueError
        end
   else Raise OSError,
   step env (EvReadN (h_path f) 4) w).
Proof.
  unfold read_u32, read_n, guarded, bind, ret, raise, lift. simpl.
  destruct (io_ok env (tick w)); [|reflexivity].
  destruct (String.length (substring (h_pos f) 4 (h_data f)) =? 4)%nat eqn:L; simpl.
  - destruct (proj1 (unpack_le32_length _) L) as [v Hv]. rewrite Hv.
    apply Nat.eqb_eq in L. rewrite L. reflexivity.
  - rewrite L. simpl.
    destruct (unpack_le32 (substring (h_pos f) 4 (h_data f))) eqn:U; try reflexivity.
    + assert ((String.length (substring (h_pos f) 4 (h_data f)) =? 4)%nat = true)
        by (apply unpack_le32_length; eauto).
      congruence.
Qed.

(** The loop appends a prefix of the words that lie at the read position;
    all [k] of them when it ends without an exception. *)
Lemma read_entries_prefix env k :
  forall f acc w,
  exists j st w',
    read_entries env k f acc w
    = (Ok ((acc ++ map mask_stepping (take j (words_at k (h_data f) (h_pos f))))%list, st), w')
    /\ (j <= k)%nat
    /\ (st = None -> length (words_at k (h_data f) (h_pos f)) = k /\ j = k)
    /\ (forall e, st = Some e ->
        last (trace w') = Some (EvReadN (h_path f) 4)).
Proof.
  induction k as [|k IH]; intros f acc w.
  - exists 0%nat, None, w. simpl. rewrite app_nil_r.
    repeat split; try reflexivity; try lia. discriminate.
  - simpl. unfold bind at 1, attempt, try_except, bind at 1, ret.
    rewrite read_u32_run.
    destruct (io_ok env (tick w)).
    + destruct (unpack_le32 (substring (h_pos f) 4 (h_data f))) as [v| | |] eqn:U.
      * destruct (IH {| h_path := h_path f; h_data := h_data f;
                        h_pos := (h_pos f + 4)%nat |}
                    (acc ++ [mask_stepping v])%list
                    (step env (EvReadN (h_path f) 4) w)) as (j & st & w' & E & Hj & Hn & Hs).
        simpl in E, Hn, Hs.
        exists (S j), st, w'. rewrite E. simpl.
        rewrite <- app_assoc. simpl.
        split; [reflexivity|]. split; [lia|]. split.
        -- intros Hst. destruct (Hn Hst) as [Hl ->]. rewrite Hl. auto.
        -- exact Hs.
      * exists 0%nat, (Some ValueError), (step env (EvReadN (h_path f) 4) w).
        simpl. rewrite app_nil_r. split; [reflexivity|]. split; [lia|].
        split; [discriminate|]. intros _ _. apply last_snoc.
      * exists 0%nat, (Some ValueError), (step env (EvReadN (h_path f) 4) w).
        simpl. rewrite app_nil_r. split; [reflexivity|]. split; [lia|].
        split; [discriminate|]. intros _ _. apply last_snoc.
      * exists 0%nat, (Some ValueError), (step env (EvReadN (h_path f) 4) w).
        simpl. rewrite app_nil_r. split; [reflexivity|]. split; [lia|].
        split; [discriminate|]. intros _ _. apply last_snoc.
    + exists 0%nat, (Some OSError), (step env (EvReadN (h_path f) 4) w).
      simpl. rewrite app_nil_r. split; [reflexivity|]. split; [lia|].
      split; [discriminate|]. intros _ _. apply last_snoc.
Qed.



Lemma table_header_cases env blob_path w :
  (exists e w1, table_header env blob_path w = (Raise e, w1))
  \/ exists n f w1, table_header env blob_path w = (Ok (n, f), w1).
Proof.
  unfold table_header, open_r, seek, guarded, bind, ret.
  destruct (file_content env (tick w) blob_path) as [d|]; [|eauto].
  destruct (io_ok env (tick (step env (EvOpen blob_path) w))); [|eauto].
  rewrite read_u32_run. cbn [h_pos h_data h_path].
  destruct (io_ok env _); [|eauto].
  destruct (unpack_le32 (substring (4096 + 1024) 4 d)) as [v| | |]; eauto.
  cbn [fst snd h_pos h_data h_path].
  destruct (io_ok env _); eauto.
Qed.




(** ** Catalog builder *)

Lemma sample_catalog :
  fst (get_all_tdx_modules catalog_env "repo" start_world)
  = Ok (Some [ {| version := "1.5.06";
                  path := "repo/joined_files/1.5/tdx_module_1.5.06.blob";
                  supported_CPU_family_model := [0x000806F0];
                  min_module_version_for_td_preserving := "1.5.01";
                  min_seamldr_versions := ["2.1.3"];
                  tdx_feature0 := "0x0";
                  type := 0 |} ]).
Proof. vm_compute. reflexivity. Qed.

Lemma get_supported_cpu_family_model_ok env blob_path w :
  exists l w1, get_supported_cpu_family_model env blob_path w = (Ok l, w1).
Proof.
  unfold get_supported_cpu_family_model, attempt, try_except.
  unfold bind at 1. unfold bind at 1.
  destruct (table_header_cases env blob_path w) as [(e & w1 & H) | (n & f & w1 & H)];
    rewrite H.
  - eexists _, _. reflexivity.
  - unfold ret at 1. cbn iota beta.
    destruct (read_entries_prefix env (Z.to_nat n) f [] w1)
      as (j & st & w' & E & _).
    unfold bind at 1. rewrite E. destruct st; eexists _, _; reflexivity.
Qed.

(** [get_module_type] never raises, and a type it returns is the word at
    header offset 12 of the blob it opened. *)
Lemma get_module_type_cases env blob_path w :
  exists o w1,
    get_module_type env blob_path w = (Ok o, w1)
    /\ forall t, o = Some t ->
       exists content,
         file_content env (tick w) blob_path = Some content
         /\ unpack_le32 (substring (4096 + 12) 4 content) = Ok t.
Proof.
  unfold get_module_type, try_except, open_r, seek, read_n, guarded, bind, ret, lift.
  destruct (file_content env (tick w) blob_path) as [d|].
  - destruct (io_ok env _); [|eexists _, _; split; [reflexivity|discriminate]].
    cbn [h_pos h_data h_path fst snd].
    destruct (io_ok env _); [|eexists _, _; split; [reflexivity|discriminate]].
    cbn [h_pos h_data h_path fst snd].
    destruct (unpack_le32 (substring (4096 + 12) 4 d)) as [v| | |] eqn:U.
    + eexists _, _. split; [reflexivity|]. intros t [= <-]. eauto.
    + eexists _, _. split; [reflexivity|discriminate].
    + exfalso. destruct (substring (4096 + 12) 4 d) as [|? [|? [|? [|? [|? ?]]]]];
        simpl in U; congruence.
    + exfalso. destruct (substring (4096 + 12) 4 d) as [|? [|? [|? [|? [|? ?]]]]];
        simpl in U; congruence.
  - eexists _, _. split; [reflexivity|discriminate].
Qed.

(** *** The version in a blob name is a dotted triple *)

Lemma span_digits_spec s :
  all_digits (fst (span_digits s)) = true
  /\ s = fst (span_digits s) ++ snd (span_digits s).
Proof.
  induction s as [|c r [IH1 IH2]]; simpl; [auto|].
  destruct (is_digit c) eqn:D; [|auto].
  destruct (span_digits r) as [d rest]. simpl in *.
  rewrite D, IH1. split; [reflexivity|].
  change (String c r = String c (d ++ rest)). f_equal. exact IH2.
Qed.

Lemma match_number_spec s d rest :
  match_number s = Some (d, rest) -> is_number d = true.
Proof.
  unfold match_number. pose proof (span_digits_spec s) as [H _].
  destruct (span_digits s) as [[|c d'] r]; [discriminate|].
  intros [= <- <-]. exact H.
Qed.

Lemma is_number_all_digits d : is_number d = true -> all_digits d = true.
Proof. destruct d; [discriminate|auto]. Qed.

Lemma split_digits_dot d r :
  all_digits d = true -> split "." (d ++ String "." r) = d :: split "." r.
Proof.
  induction d as [|c d IH]; simpl; [reflexivity|].
  intros H. apply andb_true_iff in H as [Hc Hd].
  destruct (Ascii.eqb_spec c ".") as [-> | _]; [vm_compute in Hc; discriminate|].
  rewrite (IH Hd). reflexivity.
Qed.

Lemma split_digits d : all_digits d = true -> split "." d = [d].
Proof.
  induction d as [|c d IH]; simpl; [reflexivity|].
  intros H. apply andb_true_iff in H as [Hc Hd].
  destruct (Ascii.eqb_spec c ".") as [-> | _]; [vm_compute in Hc; discriminate|].
  rewrite (IH Hd). reflexivity.
Qed.

Lemma match_blob_name_dotted s v :
  match_blob_name s = Some v -> is_dotted_triple v = true.
Proof.
  unfold match_blob_name.
  destruct (strip_prefix "tdx_module_" s) as [r0|]; [|discriminate].
  destruct (match_number r0) as [[a r1]|] eqn:Ma; [|discriminate].
  destruct (strip_prefix "." r1) as [r2|]; [|discriminate].
  destruct (match_number r2) as [[b r3]|] eqn:Mb; [|discriminate].
  destruct (strip_prefix "." r3) as [r4|]; [|discriminate].
  destruct (match_number r4) as [[c r5]|] eqn:Mc; [|discriminate].
  destruct (strip_prefix ".blob" r5); [|discriminate].
  intros [= <-].
  apply match_number_spec in Ma, Mb, Mc.
  unfold is_dotted_triple.
  change (a ++ "." ++ b ++ "." ++ c) with (a ++ String "." (b ++ String "." c)).
  rewrite (split_digits_dot a _ (is_number_all_digits a Ma)).
  rewrite (split_digits_dot b _ (is_number_all_digits b Mb)).
  rewrite (split_digits c (is_number_all_digits c Mc)).
  rewrite Ma, Mb, Mc. reflexivity.
Qed.

Lemma search_blob_name_dotted s v :
  search_blob_name s = Some v -> is_dotted_triple v = true.
Proof.
  induction s as [|c r IH]; simpl.
  - discriminate.
  - destruct (match_blob_name (String c r)) eqn:E.
    + intros [= <-]. eapply match_blob_name_dotted, E.
    + exact IH.
Qed.

(** *** Release records *)

Lemma releases_dict_sound (all rs : list Release) :
  forall d d',
    (forall r, r ∈ rs -> r ∈ all) ->
    (forall v r, d !! v = Some r -> r ∈ all /\ rel_version r = Some v) ->
    releases_dict rs d = Ok d' ->
    forall v r, d' !! v = Some r -> r ∈ all /\ rel_version r = Some v.
Proof.
  induction rs as [|x rs IH]; intros d d' Hin Hd; simpl.
  - intros [= <-]. exact Hd.
  - destruct (rel_version x) as [vx|] eqn:Ex; [|discriminate].
    apply IH.
    + intros r Hr. apply Hin. right. exact Hr.
    + intros v r. destruct (decide (vx = v)) as [<- | Hne].
      * rewrite lookup_insert_eq. intros [= <-]. split; [apply Hin; left|exact Ex].
      * rewrite lookup_insert_ne by exact Hne. apply Hd.
Qed.

Lemma releases_dict_cases rs d :
  releases_dict rs d = Raise KeyError \/ exists d', releases_dict rs d = Ok d'.
Proof.
  revert d. induction rs as [|x rs IH]; intros d; simpl; [eauto|].
  destruct (rel_version x); [apply IH|auto].
Qed.

Lemma releases_dict_total rs d :
  Forall (fun r => rel_version r <> None) rs -> exists d', releases_dict rs d = Ok d'.
Proof.
  intros H. revert d. induction H as [|x rs Hx _ IH]; intros d; simpl; [eauto|].
  destruct (rel_version x); [apply IH|congruence].
Qed.

(** *** One blob *)

Lemma examine_blob_ok env directory releases t0 info blob_file w :
  json_load env t0 (path_join directory "mapping_file.json") = Some releases ->
  (forall v r, info !! v = Some r -> r ∈ releases /\ rel_version r = Some v) ->
  exists o w1,
    examine_blob env info blob_file w = (Ok o, w1)
    /\ forall m, o = Some m -> catalog_record_ok env directory m.
Proof.
  intros Hjson Hinfo. unfold examine_blob.
  destruct (search_blob_name (basename blob_file)) as [v|] eqn:Hv;
    [|eexists _, _; split; [reflexivity|discriminate]].
  destruct (get_supported_cpu_family_model_ok env blob_file w) as (l & w1 & Hl).
  unfold bind at 1. rewrite Hl.
  destruct (get_module_type_cases env blob_file w1) as (o & w2 & Ht & Htype).
  unfold bind at 1. rewrite Ht.
  destruct (info !! v) as [r|] eqn:Hr;
    [|eexists _, _; split; [reflexivity|discriminate]].
  destruct (Hinfo v r Hr) as [Hin Hrv].
  destruct o as [t|]; [|eexists _, _; split; [reflexivity|discriminate]].
  destruct (rel_min_module_version_for_td_preserving r) as [mv|] eqn:Hmv;
    [|eexists _, _; split; [reflexivity|discriminate]].
  destruct (rel_min_seamldr_versions r) as [sv|] eqn:Hsv;
    [|eexists _, _; split; [reflexivity|discriminate]].
  destruct (rel_tdx_feature0 r) as [f0|] eqn:Hf0;
    [|eexists _, _; split; [reflexivity|discriminate]].
  eexists _, _. split; [reflexivity|].
  intros m [= <-]. unfold catalog_record_ok. simpl.
  split; [exact Hv|]. split; [eapply search_blob_name_dotted, Hv|]. split.
  - destruct (Htype t eq_refl) as (content & Hc & Hu). eauto.
  - exists t0, releases, r. auto 10.
Qed.

Lemma collect_blobs_ok env directory releases t0 info blob_files :
  json_load env t0 (path_join directory "mapping_file.json") = Some releases ->
  (forall v r, info !! v = Some r -> r ∈ releases /\ rel_version r = Some v) ->
  forall modules w,
    Forall (catalog_record_ok env directory) modules ->
    exists ms w1,
      collect_blobs env info blob_files modules w = (Ok ms, w1)
      /\ Forall (catalog_record_ok env directory) ms.
Proof.
  intros Hjson Hinfo.
  induction blob_files as [|b bs IH]; intros modules w Hm; simpl.
  - eexists _, _. split; [reflexivity|exact Hm].
  - destruct (examine_blob_ok env directory releases t0 info b w Hjson Hinfo)
      as (o & w1 & E & Ho).
    unfold bind at 1. rewrite E. apply IH.
    destruct o as [m|]; [|exact Hm].
    apply Forall_app. split; [exact Hm|]. constructor; [|constructor].
    apply Ho. reflexivity.
Qed.

Lemma collect_dirs_ok env directory releases t0 info version_dirs :
  json_load env t0 (path_join directory "mapping_file.json") = Some releases ->
  (forall v r, info !! v = Some r -> r ∈ releases /\ rel_version r = Some v) ->
  forall modules w,
    Forall (catalog_record_ok env directory) modules ->
    exists ms w1,
      collect_dirs env info version_dirs modules w = (Ok ms, w1)
      /\ Forall (catalog_record_ok env directory) ms.
Proof.
  intros Hjson Hinfo.
  induction version_dirs as [|d ds IH]; intros modules w Hm; simpl.
  - eexists _, _. split; [reflexivity|exact Hm].
  - unfold bind at 1, glob_blobs at 1.
    destruct (collect_blobs_ok env directory releases t0 info
                (map (path_join d) (List.filter is_blob_name (listdir env (tick w) d)))
                Hjson Hinfo modules (step env (EvGlob d) w) Hm)
      as (ms & w1 & E & Hms).
    unfold bind at 1. rewrite E. apply IH, Hms.
Qed.

(** C9: [get_all_tdx_modules] never raises. Every record of the catalog it
    returns has, as its version, the dotted triple found in the name of its
    blob, as its type the word read at header offset 12 of that blob, and as
    its three metadata fields the values, all present, of a release record
    of the mapping file that has exactly that version. When the mapping file
    loads and each of its records has a version, a catalog is returned
    whatever the blobs are: a blob without such a record, or without a
    readable type, only goes missing from it. In the sample repository the
    blob 1.5.07, which has no release record, is left out and 1.5.06 is
    kept. *)
Theorem catalog_records_complete :
  (forall env directory w,
      exists o,
        fst (get_all_tdx_modules env directory w) = Ok o
        /\ (forall ms, o = Some ms -> Forall (catalog_record_ok env directory) ms)
        /\ (forall releases,
              json_load env (tick w) (path_join directory "mapping_file.json")
              = Some releases ->
              Forall (fun r => rel_version r <> None) releases ->
              exists ms, o = Some ms))
  /\ (exists m,
        fst (get_all_tdx_modules catalog_env "repo" start_world) = Ok (Some [m])
        /\ version m = "1.5.06"
        /\ listdir catalog_env 0 "repo/joined_files/1.5"
           = ["tdx_module_1.5.06.blob"; "tdx_module_1.5.07.blob"; "README.md"]).
Proof.
  split.
  - intros env directory w.
    unfold get_all_tdx_modules, try_except, load_releases.
    unfold bind at 1.
    destruct (json_load env (tick w) (path_join directory "mapping_file.json"))
      as [releases|] eqn:Hjson; simpl of_option.
    + unfold bind at 1, lift at 1.
      destruct (releases_dict_cases releases ∅) as [E | [info E]]; rewrite E.
      * eexists. split; [reflexivity|]. split; [discriminate|].
        intros rs [= <-] Hall.
        destruct (releases_dict_total releases ∅ Hall) as [d' E']. congruence.
      * unfold bind at 1, walk at 1.
        assert (forall v r, info !! v = Some r -> r ∈ releases /\ rel_version r = Some v)
          as Hinfo.
        { eapply (releases_dict_sound releases releases ∅ info); [auto| |exact E].
          intros v r Hr. rewrite lookup_empty in Hr. discriminate. }
        cbn beta iota.
        match goal with
        | |- context [bind (collect_dirs env info ?vd []) _ ?w0] =>
            destruct (collect_dirs_ok env directory releases (tick w) info vd
                        Hjson Hinfo [] w0 (List.Forall_nil _)) as (ms & w1 & Ec & Hms)
        end.
        unfold bind at 1. rewrite Ec.
        exists (Some ms). split; [reflexivity|]. split; [|eauto].
        intros ms' [= <-]. exact Hms.
    + eexists. split; [reflexivity|]. split; discriminate.
  - eexists. split; [apply sample_catalog|]. split; reflexivity.
Qed.

Lemma catalog_records_complete_witness :
  exists o,
    fst (get_all_tdx_modules catalog_env "repo" start_world) = Ok o
    /\ (forall ms, o = Some ms -> Forall (catalog_record_ok catalog_env "repo") ms)
    /\ exists ms, o = Some ms.
Proof.
  destruct (proj1 catalog_records_complete catalog_env "repo" start_world)
    as (o & Ho & Hrec & Hbuild).
  exists o. split; [exact Ho|]. split; [exact Hrec|].
  eapply Hbuild; [reflexivity|].
  repeat constructor; discriminate.
Defined.

(** ** Firmware loader *)

Example load_succeeds :
  update_tdx_module (loader_env 0 "") 20
    (Some (sample_module "1.5.12" "1.5.8" ["2.1.3"])) start_world
  = (Ok RetNone,
     {| trace :=
          [EvOpen "/sys/devices/faux/tdx_host/seamldr/version";
           EvReadAll "/sys/devices/faux/tdx_host/seamldr/version";
           EvCpuid;
           EvOpen "/sys/devices/faux/tdx_host/version";
           EvReadAll "/sys/devices/faux/tdx_host/version";
           EvExists "/sys/class/firmware/seamldr_upload";
           EvOpen "/sys/devices/faux/tdx_host/version";
           EvReadAll "/sys/devices/faux/tdx_host/version";
           EvPrint "Install module joined_files/1.5/tdx_module_1.5.12.blob";
           EvOpenW "/sys/class/firmware/seamldr_upload/loading";
           EvWrite "/sys/class/firmware/seamldr_upload/loading" "1";
           EvOpenW "/sys/class/firmware/seamldr_upload/data";
           EvOpen "joined_files/1.5/tdx_module_1.5.12.blob";
           EvReadAll "joined_files/1.5/tdx_module_1.5.12.blob";
           EvWrite "/sys/class/firmware/seamldr_upload/data" "blob bytes";
           EvOpenW "/sys/class/firmware/seamldr_upload/loading";
           EvWrite "/sys/class/firmware/seamldr_upload/loading" "0";
           EvTime;
           EvOpen "/sys/class/firmware/seamldr_upload/status";
           EvReadAll "/sys/class/firmware/seamldr_upload/status";
           EvOpen "/sys/class/firmware/seamldr_upload/error";
           EvReadAll "/sys/class/firmware/seamldr_upload/error";
           EvOpen "/sys/devices/faux/tdx_host/version";
           EvReadAll "/sys/devices/faux/tdx_host/version";
           EvPrint "Upgrade Intel TDX module from 1.5.10 to 1.5.10"];
        clock := 0%Q |}).
Proof. vm_compute. reflexivity. Qed.

Lemma substring_all s : substring 0 (String.length s) s = s.
Proof. induction s as [|c s IH]; simpl; [reflexivity|]. rewrite IH. reflexivity. Qed.

Lemma trace_step env ev w : trace (step env ev w) = (trace w ++ [ev])%list.
Proof. reflexivity. Qed.

(** Reading a node: open, then read, each of which may fail. *)
Lemma read_stripped_run env p w :
  read_stripped env p w =
  match file_content env (tick w) p with
  | None => (Raise OSError, step env (EvOpen p) w)
  | Some d =>
      (if io_ok env (S (tick w)) then Ok (strip d) else Raise OSError,
       step env (EvReadAll p) (step env (EvOpen p) w))
  end.
Proof.
  unfold read_stripped, open_r, read_all, guarded, bind, ret.
  destruct (file_content env (tick w) p) as [d|]; [|reflexivity].
  cbn [h_path h_data h_pos]. rewrite tick_step.
  destruct (io_ok env (S (tick w))); [|reflexivity].
  rewrite substring_all. reflexivity.
Qed.

Lemma get_current_module_version_total env w :
  exists o w1, get_current_module_version env w = (Ok o, w1).
Proof.
  unfold get_current_module_version, try_except. unfold bind at 1.
  rewrite read_stripped_run.
  destruct (file_content env (tick w) _); [destruct (io_ok env _)|];
    eexists _, _; reflexivity.
Qed.

(** The loop returns only after a status read that gave "idle", the last
    two events before it returns. *)
Lemma poll_status_idle env start fuel :
  forall w w1,
    poll_status env fuel start w = (Ok tt, w1) ->
    exists t raw,
      file_content env t status_node = Some raw
      /\ strip raw = "idle"
      /\ tick w1 = S (S t).
Proof.
  induction fuel as [|fuel IH]; intros w w1; simpl; [discriminate|].
  unfold bind at 1. rewrite read_stripped_run.
  destruct (file_content env (tick w) status_node) as [raw|] eqn:Hraw; [|discriminate].
  destruct (io_ok env (S (tick w))); [|discriminate].
  destruct (String.eqb (strip raw) "idle") eqn:Hidle.
  - intros [= <-]. apply String.eqb_eq in Hidle.
    exists (tick w), raw. rewrite !tick_step. auto.
  - unfold bind at 1, time at 1.
    destruct (negb (Qle_bool _ _)).
    + unfold bind, print, emit, sys_exit. discriminate.
    + unfold bind at 1, sleep at 1. apply IH.
Qed.

Lemma until_idle_idle env fuel m w w1 :
  until_idle env fuel m w = (Ok tt, w1) ->
  exists t raw,
    file_content env t status_node = Some raw /\ strip raw = "idle" /\ tick w1 = S (S t).
Proof.
  unfold until_idle. unfold bind at 1.
  destruct (transfer env m w) as [[[]| | |] w0]; try discriminate.
  unfold bind at 1, time at 1. apply poll_status_idle.
Qed.

(** What follows the loop, when the error node is read. *)
Lemma conclude_run env prev w content :
  file_content env (tick w) error_node = Some content ->
  io_ok env (S (tick w)) = true ->
  let w' := step env (EvReadAll error_node) (step env (EvOpen error_node) w) in
  conclude env prev w =
  if String.eqb (strip content) EmptyString
  then (curr_version <- get_current_module_version env ;;
        print env ("Upgrade Intel TDX module from " ++ show prev
                   ++ " to " ++ show curr_version) ;;
        ret RetNone) w'
  else (SysExit 1, step env (EvPrint ("Firmware update failed " ++ strip content)) w').
Proof.
  intros Hc Hio. unfold conclude. unfold bind at 1.
  rewrite read_stripped_run, Hc, Hio. simpl.
  destruct (String.eqb (strip content) EmptyString); reflexivity.
Qed.

(** The printed line carries a fixed text before the content of the error
    node. *)
Lemma failure_line_has_prefix :
  let r := install (loader_env 0 ("  bad blob" ++ newline)) 20
             (sample_module "1.5.12" "1.5.8" ["2.1.3"]) (Some "1.5.10") start_world in
  fst r = SysExit 1
  /\ strip ("  bad blob" ++ newline) = "bad blob"
  /\ last (trace (snd r)) = Some (EvPrint "Firmware update failed bad blob")
  /\ "Firmware update failed bad blob" <> strip ("  bad blob" ++ newline).
Proof. vm_compute. repeat split; discriminate. Qed.

(** C3, amended: once the status node has read "idle" and the error node is
    read, a non-empty trimmed content ends the call with [sys.exit(1)], the
    last line printed being "Firmware update failed " followed by that
    content verbatim; an empty one ends it normally, the last line printed
    being the report of the upgrade. *)
Theorem idle_error_outcome env fuel m prev w w1 content :
  until_idle env fuel m w = (Ok tt, w1) ->
  file_content env (tick w1) error_node = Some content ->
  io_ok env (S (tick w1)) = true ->
  (exists t raw,
      file_content env t status_node = Some raw /\ strip raw = "idle"
      /\ tick w1 = S (S t))
  /\ (strip content <> EmptyString ->
      exists w2,
        install env fuel m prev w = (SysExit 1, w2)
        /\ last (trace w2) = Some (EvPrint ("Firmware update failed " ++ strip content)))
  /\ (strip content = EmptyString ->
      exists w2 curr,
        install env fuel m prev w = (Ok RetNone, w2)
        /\ last (trace w2)
           = Some (EvPrint ("Upgrade Intel TDX module from " ++ show prev
                            ++ " to " ++ show curr))).
Proof.
  intros Hidle Hc Hio. split; [eapply until_idle_idle, Hidle|].
  unfold install, try_except. unfold bind at 1 3. rewrite Hidle.
  rewrite (conclude_run env prev w1 content Hc Hio). cbn zeta.
  split.
  - intros Hne. apply String.eqb_neq in Hne. rewrite Hne.
    eexists. split; [reflexivity|]. rewrite trace_step. apply last_snoc.
  - intros He. rewrite He. simpl String.eqb. cbn iota.
    unfold bind at 1.
    destruct (get_current_module_version_total env
                (step env (EvReadAll error_node) (step env (EvOpen error_node) w1)))
      as (curr & w3 & E).
    rewrite E. unfold bind, print, emit, ret.
    eexists _, curr. split; [reflexivity|]. rewrite trace_step. apply last_snoc.
Qed.

Lemma idle_error_outcome_witness :
  exists w2,
    install (loader_env 0 ("  bad blob" ++ newline)) 20
      (sample_module "1.5.12" "1.5.8" ["2.1.3"]) (Some "1.5.10") start_world
    = (SysExit 1, w2)
    /\ last (trace w2)
       = Some (EvPrint ("Firmware update failed " ++ strip ("  bad blob" ++ newline))).
Proof.
  refine (proj1 (proj2 (idle_error_outcome
            (loader_env 0 ("  bad blob" ++ newline)) 20
            (sample_module "1.5.12" "1.5.8" ["2.1.3"]) (Some "1.5.10") start_world
            (snd (until_idle (loader_env 0 ("  bad blob" ++ newline)) 20
                    (sample_module "1.5.12" "1.5.8" ["2.1.3"]) start_world))
            ("  bad blob" ++ newline) _ _ _)) _).
  - vm_compute. reflexivity.
  - vm_compute. reflexivity.
  - reflexivity.
  - vm_compute. discriminate.
Defined.

(** ** Rejected candidates *)

Lemma quiet_from_nothing {A} (c : M A) w : snd (c w) = w -> quiet_from c w.
Proof.
  intros H. exists []. rewrite H, app_nil_r. split; [reflexivity|constructor].
Qed.

Lemma quiet_ret {A} (a : A) : quiet (ret a).
Proof. intros w. apply quiet_from_nothing. reflexivity. Qed.

Lemma quiet_lift {A} (r : result A) : quiet (lift r).
Proof. intros w. apply quiet_from_nothing. reflexivity. Qed.

Lemma quiet_emit env ev : touches_control ev = false -> quiet (emit env ev).
Proof.
  intros H w. exists [ev]. split; [reflexivity|]. constructor; [exact H|constructor].
Qed.

Lemma quiet_print env line : quiet (print env line).
Proof. apply quiet_emit. reflexivity. Qed.

Lemma quiet_print_exn env prefix e : quiet (print_exn env prefix e).
Proof. apply quiet_emit. reflexivity. Qed.

(** Sequencing: the continuation need only be quiet on what [c] did
    return. *)
Lemma quiet_from_bind {A B} (c : M A) (k : A -> M B) w :
  quiet_from c w ->
  (forall a w1, c w = (Ok a, w1) -> quiet_from (k a) w1) ->
  quiet_from (bind c k) w.
Proof.
  intros (evs & Ht & Hq) Hk. unfold quiet_from, bind.
  destruct (c w) as [[a| | |] w1] eqn:E; simpl in Ht;
    try (exists evs; split; [exact Ht|exact Hq]).
  destruct (Hk a w1 eq_refl) as (evs' & Ht' & Hq').
  exists (evs ++ evs')%list. rewrite Ht', Ht, app_assoc.
  split; [reflexivity|]. apply Forall_app. split; assumption.
Qed.

Lemma quiet_bind {A B} (c : M A) (k : A -> M B) :
  quiet c -> (forall a, quiet (k a)) -> quiet (bind c k).
Proof. intros Hc Hk w. apply quiet_from_bind; [apply Hc|]. intros a w1 _. apply Hk. Qed.

Lemma quiet_try_except {A} (body : M A) (handler : exn -> M A) :
  quiet body -> (forall e, quiet (handler e)) -> quiet (try_except body handler).
Proof.
  intros Hb Hh w. destruct (Hb w) as (evs & Ht & Hq). unfold quiet_from, try_except.
  destruct (body w) as [[a| e | |] w1] eqn:E; simpl in Ht;
    try (exists evs; split; [exact Ht|exact Hq]).
  destruct (Hh e w1) as (evs' & Ht' & Hq').
  exists (evs ++ evs')%list. rewrite Ht', Ht, app_assoc.
  split; [reflexivity|]. apply Forall_app. split; assumption.
Qed.

Lemma quiet_read_stripped env p :
  String.prefix FIRMWARE_PATH p = false -> quiet (read_stripped env p).
Proof.
  intros Hp w. unfold quiet_from. rewrite read_stripped_run.
  destruct (file_content env (tick w) p).
  - exists [EvOpen p; EvReadAll p]. split.
    + simpl. rewrite <- app_assoc. reflexivity.
    + repeat constructor; exact Hp.
  - exists [EvOpen p]. split; [reflexivity|]. repeat constructor; exact Hp.
Qed.

Lemma quiet_get_current_module_version env : quiet (get_current_module_version env).
Proof.
  apply quiet_try_except.
  - apply quiet_bind; [apply quiet_read_stripped; reflexivity|].
    intros a. apply quiet_ret.
  - intros e. apply quiet_bind; [apply quiet_print_exn|]. intros _. apply quiet_ret.
Qed.

Lemma quiet_get_current_seamldr_version env : quiet (get_current_seamldr_version env).
Proof.
  apply quiet_try_except.
  - apply quiet_bind; [apply quiet_read_stripped; reflexivity|].
    intros a. apply quiet_ret.
  - intros e. apply quiet_bind; [apply quiet_print_exn|]. intros _. apply quiet_ret.
Qed.

Lemma quiet_get_cpuid_1_eax env : quiet (get_cpuid_1_eax env).
Proof.
  intros w. unfold quiet_from, get_cpuid_1_eax.
  destruct (cpuid_1_eax env (tick w)).
  - exists [EvCpuid]. split; [reflexivity|]. repeat constructor.
  - exists [EvCpuid; EvPrintExn "Intel TDX module works for Intel CPUs only " OSError].
    split; [|repeat constructor].
    simpl. rewrite <- app_assoc. reflexivity.
Qed.

Lemma quiet_is_compatible_with_seamldr env m v : quiet (is_compatible_with_seamldr env m v).
Proof.
  apply quiet_try_except.
  - apply quiet_bind; [apply quiet_lift|]. intros a. apply quiet_lift.
  - intros e. apply quiet_bind; [apply quiet_print_exn|]. intros _. apply quiet_ret.
Qed.

Lemma quiet_is_compatible env m : quiet (is_compatible env m).
Proof.
  apply quiet_bind; [apply quiet_get_current_seamldr_version|].
  intros [v|]; [|apply quiet_ret].
  apply quiet_bind; [apply quiet_is_compatible_with_seamldr|].
  intros []; simpl; [|apply quiet_ret].
  apply quiet_bind; [apply quiet_get_cpuid_1_eax|].
  intros [eax|]; apply quiet_ret.
Qed.

Lemma quiet_is_td_preserving_capable env m : quiet (is_td_preserving_capable env m).
Proof.
  unfold is_td_preserving_capable.
  destruct (truthy (is_debug m) && negb (allow_debug env)); [apply quiet_ret|].
  apply quiet_bind; [apply quiet_get_current_module_version|].
  intros [[|c s]|]; try apply quiet_ret. apply quiet_lift.
Qed.

(** C7: when the compatibility check does not return [True], or the module
    is a debug module and [allow_debug] is off, or the TD-preserving check
    does not return [True], every event [update_tdx_module] performs leaves
    the control interface alone: no node under its root is opened, read,
    written or tested for existence. A candidate that passes all three has
    "1" written to the loading node. *)
Theorem rejected_candidate_untouched :
  (forall env fuel m w,
      fst (is_compatible env m w) <> Ok true
      \/ truthy (is_debug m) && negb (allow_debug env) = true
      \/ fst (is_td_preserving_capable env m (snd (is_compatible env m w))) <> Ok true ->
      exists evs,
        trace (snd (update_tdx_module env fuel (Some m) w)) = (trace w ++ evs)%list
        /\ Forall (fun ev => touches_control ev = false) evs)
  /\ EvWrite loading_node "1"
     ∈ trace (snd (update_tdx_module (loader_env 0 "") 20
                     (Some (sample_module "1.5.12" "1.5.8" ["2.1.3"])) start_world)).
Proof.
  split.
  - intros env fuel m w Hrej. unfold update_tdx_module.
    apply quiet_from_bind; [apply quiet_is_compatible|].
    intros compatible w1 Hc. rewrite Hc in Hrej. simpl in Hrej.
    destruct compatible; simpl negb; cbn iota.
    2:{ apply quiet_bind; [apply quiet_print|]. intros _. apply quiet_ret. }
    destruct (truthy (is_debug m) && negb (allow_debug env)) eqn:Hg.
    { apply quiet_bind; [apply quiet_print|]. intros _. apply quiet_ret. }
    apply quiet_from_bind; [apply quiet_is_td_preserving_capable|].
    intros capable w2 Hcap. rewrite Hcap in Hrej. simpl in Hrej.
    destruct capable; simpl negb; cbn iota.
    + exfalso. destruct Hrej as [H | [H | H]]; congruence.
    + apply quiet_bind; [apply quiet_print|]. intros _. apply quiet_ret.
  - rewrite load_succeeds. cbn [snd trace]. unfold loading_node.
    apply list_elem_of_In. vm_compute. do 10 right. left. reflexivity.
Qed.

Lemma rejected_candidate_untouched_witness :
  exists evs,
    trace (snd (update_tdx_module (loader_env 0 "") 20
                  (Some (sample_module "1.5.9" "1.5.8" ["2.1.3"])) start_world))
    = (trace start_world ++ evs)%list
    /\ Forall (fun ev => touches_control ev = false) evs.
Proof.
  apply (proj1 rejected_candidate_untouched (loader_env 0 "") 20%nat
           (sample_module "1.5.9" "1.5.8" ["2.1.3"]) start_world).
  right. right. vm_compute. discriminate.
Defined.

(** ** Polling *)

Lemma inject_Z_fuel_step (f : nat) :
  (inject_Z (12 - Z.of_nat f) <= inject_Z (12 - Z.of_nat (S f)) + inject_Z 1)%Q.
Proof. rewrite <- inject_Z_plus. rewrite <- Zle_Qle. lia. Qed.

(** With status reads that succeed and never give "idle", and a clock that
    never runs backwards, the loop ends in [sys.exit(1)]: each round adds a
    second, and twelve rounds are enough. *)
Lemma poll_status_times_out env start T :
  (forall t, (0 <= latency env t)%Q) ->
  (forall t, (T <= t)%nat -> io_ok env t = true) ->
  (forall t, (T <= t)%nat ->
     exists raw, file_content env t status_node = Some raw /\ strip raw <> "idle") ->
  forall fuel w,
    (1 <= fuel)%nat -> (T <= tick w)%nat ->
    (inject_Z (12 - Z.of_nat fuel) <= clock w - start)%Q ->
    exists w2 evs,
      poll_status env fuel start w = (SysExit 1, w2)
      /\ trace w2 = (trace w ++ evs)%list
      /\ last evs = Some (EvPrint timeout_message)
      /\ Forall poll_event evs.
Proof.
  intros Hlat Hio Hbusy.
  induction fuel as [|f IH]; intros w Hf HT Hinv; [lia|].
  simpl poll_status. unfold bind at 1. rewrite read_stripped_run.
  destruct (Hbusy (tick w) HT) as (raw & Hraw & Hne).
  rewrite Hraw, (Hio (S (tick w))) by lia.
  apply String.eqb_neq in Hne. rewrite Hne.
  set (w1 := step env (EvReadAll status_node) (step env (EvOpen status_node) w)).
  unfold bind at 1, time at 1.
  set (w2 := step env EvTime w1).
  assert (clock w <= clock w2)%Q as Hclk.
  { unfold w2, w1, step. simpl clock.
    pose proof (Hlat (tick w)).
    pose proof (Hlat (tick (step env (EvOpen status_node) w))).
    pose proof (Hlat (tick (step env (EvReadAll status_node)
                              (step env (EvOpen status_node) w)))).
    unfold step in *. cbn [clock trace] in *. lra. }
  destruct (Qle_bool (clock w2 - start) (inject_Z timeout)) eqn:Hle; simpl negb; cbn iota.
  - apply Qle_bool_iff in Hle.
    unfold bind at 1, sleep at 1.
    set (w3 := {| trace := trace (step env (EvSleep 1) w2);
                  clock := (clock (step env (EvSleep 1) w2) + inject_Z 1)%Q |}).
    assert (1 <= f)%nat as Hf'.
    { assert (inject_Z (12 - Z.of_nat (S f)) <= inject_Z timeout)%Q as H by lra.
      rewrite <- Zle_Qle in H. unfold timeout in H. lia. }
    assert (T <= tick w3)%nat as HT'.
    { unfold w3, tick. simpl. unfold w2, w1, step. simpl.
      rewrite !length_app. simpl. unfold tick in HT. lia. }
    assert (inject_Z (12 - Z.of_nat f) <= clock w3 - start)%Q as Hinv'.
    { pose proof (inject_Z_fuel_step f) as Hs.
      pose proof (Hlat (tick w2)) as Hl.
      unfold w3, w2, w1, step in *. cbn [clock trace] in *. lra. }
    destruct (IH w3 Hf' HT' Hinv') as (w4 & evs & E & Ht & Hlast & Hall).
    exists w4, ([EvOpen status_node; EvReadAll status_node; EvTime; EvSleep 1] ++ evs)%list.
    split; [exact E|]. split; [|split].
    + rewrite Ht. unfold w3, w2, w1. simpl. rewrite <- !app_assoc. reflexivity.
    + destruct evs as [|e evs]; [discriminate|]. exact Hlast.
    + apply Forall_app. split; [|exact Hall].
      repeat (apply List.Forall_cons; [unfold poll_event; auto 6|]).
      apply List.Forall_nil.
  - exists (step env (EvPrint timeout_message) w2),
      [EvOpen status_node; EvReadAll status_node; EvTime; EvPrint timeout_message].
    split; [reflexivity|]. split; [|split].
    + unfold w2, w1. simpl. rewrite <- !app_assoc. reflexivity.
    + reflexivity.
    + repeat (apply List.Forall_cons; [unfold poll_event; auto 6|]).
      apply List.Forall_nil.
Qed.

Lemma poll_event_not_success evs :
  Forall poll_event evs -> ~ reports_success evs.
Proof.
  intros Hall (prev & curr & Hin).
  rewrite Forall_forall in Hall.
  destruct (Hall _ Hin) as [H | [H | [H | [H | H]]]]; discriminate.
Qed.

(** The status node reads "busy" at every read made in the first ten
    seconds and "idle" at the read made after eleven: the loop takes the
    late "idle", and the load is reported as done. *)
Lemma late_idle_succeeds :
  let env := loader_env 53 "" in
  let r := install env 20 (sample_module "1.5.12" "1.5.8" ["2.1.3"])
             (Some "1.5.10") start_world in
  (forall t, (t < 53)%nat -> file_content env t status_node = Some ("busy" ++ newline))
  /\ nth_error (trace (snd r)) 53 = Some (EvOpen status_node)
  /\ fst r = Ok RetNone
  /\ reports_success (trace (snd r))
  /\ (clock (snd r) == 11)%Q
  /\ count_occ Z.eq_dec
       (flat_map (fun ev => match ev with EvSleep n => [n] | _ => [] end) (trace (snd r))) 1
     = 11%nat.
Proof.
  split.
  - intros t Ht. apply Nat.ltb_lt in Ht.
    change (file_content (loader_env 53 "") t status_node)
      with (Some (if (t <? 53)%nat then "busy" ++ newline else "idle" ++ newline)).
    rewrite Ht. reflexivity.
  - split; [vm_compute; reflexivity|]. split; [vm_compute; reflexivity|].
    split; [|split; vm_compute; reflexivity].
    exists "1.5.10", "1.5.10". apply list_elem_of_In. vm_compute. tauto.
Qed.

(** C8, amended: once the blob is transferred, if every read of the status
    node succeeds with a value other than "idle" and the clock never runs
    backwards, the call ends in [sys.exit(1)] within twelve status reads,
    its last line being the timeout error, and the upgrade is never
    reported. (A read that gives "idle" ends the loop successfully even when
    it is made more than ten seconds after the loop was entered.) *)
Theorem polling_times_out env fuel m prev w w1 :
  transfer env m w = (Ok tt, w1) ->
  (forall t, (0 <= latency env t)%Q) ->
  (forall t, (tick w1 <= t)%nat -> io_ok env t = true) ->
  (forall t, (tick w1 <= t)%nat ->
     exists raw, file_content env t status_node = Some raw /\ strip raw <> "idle") ->
  (12 <= fuel)%nat ->
  exists w2 evs,
    install env fuel m prev w = (SysExit 1, w2)
    /\ trace w2 = (trace w1 ++ evs)%list
    /\ last evs = Some (EvPrint timeout_message)
    /\ ~ reports_success evs.
Proof.
  intros Htr Hlat Hio Hbusy Hfuel.
  destruct (poll_status_times_out env (clock (step env EvTime w1)) (tick w1)
              Hlat Hio Hbusy fuel (step env EvTime w1))
    as (w2 & evs & E & Ht & Hlast & Hall).
  - lia.
  - rewrite tick_step. lia.
  - assert (inject_Z (12 - Z.of_nat fuel) <= inject_Z 0)%Q as H
        by (rewrite <- Zle_Qle; lia).
    change (inject_Z 0) with 0%Q in H. lra.
  - exists w2, (EvTime :: evs).
    split; [|split; [|split]].
    + unfold install, try_except, until_idle. unfold bind at 1.
      unfold bind at 1. rewrite Htr.
      unfold bind at 1, time at 1. cbn zeta. rewrite E. reflexivity.
    + rewrite Ht, trace_step, <- app_assoc. reflexivity.
    + destruct evs as [|e evs]; [discriminate|]. exact Hlast.
    + apply poll_event_not_success. constructor; [|exact Hall].
      unfold poll_event. auto.
Qed.

Lemma polling_times_out_witness :
  exists w2 evs,
    install busy_env 12 (sample_module "1.5.12" "1.5.8" ["2.1.3"])
      (Some "1.5.10") start_world = (SysExit 1, w2)
    /\ trace w2
       = (trace (snd (transfer busy_env
                        (sample_module "1.5.12" "1.5.8" ["2.1.3"]) start_world))
          ++ evs)%list
    /\ last evs = Some (EvPrint timeout_message)
    /\ ~ reports_success evs.
Proof.
  apply (polling_times_out busy_env 12
           (sample_module "1.5.12" "1.5.8" ["2.1.3"]) (Some "1.5.10") start_world
           (snd (transfer busy_env
                   (sample_module "1.5.12" "1.5.8" ["2.1.3"]) start_world))).
  - vm_compute. reflexivity.
  - intros t. vm_compute. discriminate.
  - intros t _. reflexivity.
  - intros t _. exists ("busy" ++ newline).
    split; [reflexivity|]. vm_compute. discriminate.
  - lia.
Defined.

(** * Further properties of the program *)

(** ** Words and masks *)

Lemma small_bits a n i : 0 <= a < 2 ^ n -> n <= i -> Z.testbit a i = false.
Proof.
  intros Ha Hi. rewrite <- (Z.mod_small a (2 ^ n)) by exact Ha.
  apply Z.mod_pow2_bits_high. split; [|exact Hi].
  destruct (Z.le_gt_cases 0 n) as [H | H]; [exact H|].
  rewrite Z.pow_neg_r in Ha by exact H. lia.
Qed.

Lemma lt_pow2_of_bits a n :
  0 <= n -> 0 <= a -> (forall i, n <= i -> Z.testbit a i = false) -> a < 2 ^ n.
Proof.
  intros Hn Ha Hbits.
  assert (a mod 2 ^ n = a) as <-.
  { apply Z.bits_inj'. intros i Hi. rewrite Z.testbit_mod_pow2 by exact Hn.
    destruct (Z.ltb_spec i n) as [_ | Hge]; [reflexivity|].
    simpl. symmetry. apply Hbits, Hge. }
  apply Z.mod_pos_bound. apply Z.pow_pos_nonneg; lia.
Qed.

Lemma ord_range c : 0 <= ord c < 2 ^ 8.
Proof.
  unfold ord. pose proof (N_ascii_bounded c) as H. split; [lia|].
  change (2 ^ 8) with (Z.of_N 256). lia.
Qed.

(** A word unpacked from four bytes is a 32-bit unsigned value. *)
Lemma unpack_le32_range b v : unpack_le32 b = Ok v -> 0 <= v < 2 ^ 32.
Proof.
  destruct b as [|b0 [|b1 [|b2 [|b3 [|? ?]]]]]; try discriminate.
  intros [= <-].
  pose proof (ord_range b0). pose proof (ord_range b1).
  pose proof (ord_range b2). pose proof (ord_range b3).
  assert (forall x k, 0 <= x -> 0 <= Z.shiftl x k) as Hsh
      by (intros x k Hx; apply Z.shiftl_nonneg; exact Hx).
  split.
  - repeat (apply Z.lor_nonneg; split); try apply Hsh; lia.
  - apply lt_pow2_of_bits; [lia| |].
    + repeat (apply Z.lor_nonneg; split); try apply Hsh; lia.
    + intros i Hi. rewrite !Z.lor_spec, !Z.shiftl_spec by lia.
      rewrite (small_bits (ord b0) 8 i), (small_bits (ord b1) 8 (i - 8)),
        (small_bits (ord b2) 8 (i - 16)), (small_bits (ord b3) 8 (i - 24));
        auto; lia.
Qed.

Lemma mask_stepping_range v : 0 <= v < 2 ^ 32 -> 0 <= mask_stepping v < 2 ^ 32.
Proof.
  intros Hv. unfold mask_stepping. split.
  - apply Z.land_nonneg. left. lia.
  - apply lt_pow2_of_bits; [lia| |].
    + apply Z.land_nonneg. left. lia.
    + intros i Hi. rewrite Z.land_spec, (small_bits v 32 i) by (auto; lia).
      reflexivity.
Qed.

Lemma mask_stepping_low v : Z.land (mask_stepping v) 15 = 0.
Proof. unfold mask_stepping. rewrite <- Z.land_assoc. apply Z.land_0_r. Qed.

Lemma mask_stepping_idempotent v : mask_stepping (mask_stepping v) = mask_stepping v.
Proof. unfold mask_stepping. rewrite <- Z.land_assoc. reflexivity. Qed.

(** X1: every family-model [get_supported_cpu_family_model] returns is a
    32-bit value with its four stepping bits cleared, and masking it again
    changes nothing. *)
Theorem supported_models_are_masked env blob_path w l w1 :
  get_supported_cpu_family_model env blob_path w = (Ok l, w1) ->
  Forall (fun x => 0 <= x < 2 ^ 32 /\ Z.land x 15 = 0 /\ mask_stepping x = x) l.
Proof.
  unfold get_supported_cpu_family_model, attempt, try_except.
  unfold bind at 1. unfold bind at 1.
  destruct (table_header_cases env blob_path w) as [(e & w0 & H) | (n & f & w0 & H)];
    rewrite H.
  - unfold bind, print_exn, emit, ret. intros [= <- _]. constructor.
  - unfold ret at 1. cbn iota beta.
    destruct (read_entries_prefix env (Z.to_nat n) f [] w0)
      as (j & st & w' & E & _).
    unfold bind at 1. rewrite E. simpl app.
    assert (Forall (fun x => 0 <= x < 2 ^ 32 /\ Z.land x 15 = 0 /\ mask_stepping x = x)
              (map mask_stepping (take j (words_at (Z.to_nat n) (h_data f) (h_pos f)))))
      as Hall.
    { apply Forall_forall. intros x Hx.
      apply list_elem_of_In, in_map_iff in Hx as (v & <- & Hv).
      split; [|split; [apply mask_stepping_low|apply mask_stepping_idempotent]].
      apply mask_stepping_range.
      apply list_elem_of_In, elem_of_take in Hv as (i & Hv & _).
      clear E. revert Hv. generalize (h_pos f). revert i.
      induction (Z.to_nat n) as [|k IH]; intros i pos; simpl; [rewrite lookup_nil; discriminate|].
      destruct (unpack_le32 (substring pos 4 (h_data f))) as [u| | |] eqn:U;
        try (rewrite lookup_nil; discriminate).
      destruct i as [|i]; simpl.
      - intros [= <-]. eapply unpack_le32_range, U.
      - apply IH. }
    destruct st; unfold bind, print_exn, emit, ret; intros [= <- _]; exact Hall.
Qed.

Lemma supported_models_are_masked_witness :
  Forall (fun x => 0 <= x < 2 ^ 32 /\ Z.land x 15 = 0 /\ mask_stepping x = x)
    [0x000806F0; 0x000A06D0].
Proof.
  apply (supported_models_are_masked
           (blob_env "m.blob" (sample_blob 0 2 (pack_le32 0x000806F8 ++ pack_le32 0x000A06D1)))
           "m.blob" start_world _
           (snd (get_supported_cpu_family_model
                   (blob_env "m.blob"
                      (sample_blob 0 2 (pack_le32 0x000806F8 ++ pack_le32 0x000A06D1)))
                   "m.blob" start_world))).
  vm_compute. reflexivity.
Defined.

(** ** Module type and debug flag *)

Lemma length_substring n m s :
  String.length (substring n m s) = Nat.min m (String.length s - n).
Proof.
  revert n m. induction s as [|c s IH]; intros n m.
  - destruct n, m; reflexivity.
  - destruct n as [|n].
    + destruct m as [|m]; [reflexivity|]. simpl. rewrite IH. simpl.
      rewrite Nat.sub_0_r. reflexivity.
    + simpl. apply IH.
Qed.

Lemma get_module_type_run env blob_path w :
  fst (get_module_type env blob_path w) =
  Ok (match file_content env (tick w) blob_path with
      | Some d =>
          if io_ok env (S (tick w)) && io_ok env (S (S (tick w)))
          then match unpack_le32 (substring (4096 + 12) 4 d) with
               | Ok v => Some v
               | _ => None
               end
          else None
      | None => None
      end).
Proof.
  unfold get_module_type, try_except, open_r, seek, read_n, guarded, bind, ret, lift.
  destruct (file_content env (tick w) blob_path) as [d|]; [|reflexivity].
  rewrite !tick_step.
  destruct (io_ok env (S (tick w))); [|reflexivity].
  cbn [h_pos h_data h_path fst snd]. rewrite !tick_step.
  destruct (io_ok env (S (S (tick w)))); [|reflexivity].
  cbn [h_pos h_data h_path fst snd andb].
  destruct (unpack_le32 (substring (4096 + 12) 4 d)) eqn:U; try reflexivity;
    exfalso;
    destruct (substring (4096 + 12) 4 d) as [|? [|? [|? [|? [|? ?]]]]];
    simpl in U; congruence.
Qed.

(** X2: [get_module_type] never raises. A type it returns is the 32-bit
    little-endian word at bytes 4108..4111 of the blob; it returns [None]
    when the blob does not open or is shorter than 4112 bytes, and a type
    when the blob has those bytes and the seek and the read succeed. *)
Theorem module_type_read env blob_path w :
  exists o,
    fst (get_module_type env blob_path w) = Ok o
    /\ (forall t, o = Some t ->
        0 <= t < 2 ^ 32
        /\ exists d, file_content env (tick w) blob_path = Some d
                     /\ unpack_le32 (substring (4096 + 12) 4 d) = Ok t)
    /\ (file_content env (tick w) blob_path = None -> o = None)
    /\ (forall d, file_content env (tick w) blob_path = Some d ->
        (String.length d < 4096 + 16)%nat -> o = None)
    /\ (forall d, file_content env (tick w) blob_path = Some d ->
        io_ok env (S (tick w)) = true -> io_ok env (S (S (tick w))) = true ->
        (4096 + 16 <= String.length d)%nat -> exists t, o = Some t).
Proof.
  eexists. split; [apply get_module_type_run|].
  destruct (file_content env (tick w) blob_path) as [d|].
  - split; [|split; [discriminate|split]].
    + intros t Ht. destruct (io_ok env _ && io_ok env _); [|discriminate].
      destruct (unpack_le32 (substring (4096 + 12) 4 d)) as [v| | |] eqn:U;
        try discriminate.
      injection Ht as <-. split; [eapply unpack_le32_range, U|eauto].
    + intros d' [= <-] Hshort.
      destruct (io_ok env _ && io_ok env _); [|reflexivity].
      destruct (unpack_le32 (substring (4096 + 12) 4 d)) as [v| | |] eqn:U;
        try reflexivity.
      exfalso.
      assert ((String.length (substring (4096 + 12) 4 d) =? 4)%nat = true) as L
          by (apply unpack_le32_length; eauto).
      apply Nat.eqb_eq in L. rewrite length_substring in L. lia.
    + intros d' [= <-] H1 H2 Hlong. rewrite H1, H2. simpl andb. cbn iota.
      assert ((String.length (substring (4096 + 12) 4 d) =? 4)%nat = true) as L.
      { apply Nat.eqb_eq. rewrite length_substring. lia. }
      apply unpack_le32_length in L as [v ->]. eauto.
  - split; [discriminate|]. split; [reflexivity|]. split; discriminate.
Qed.

Lemma module_type_read_witness :
  exists o,
    fst (get_module_type (blob_env "m.blob" (sample_blob 0x80000000 0 "")) "m.blob"
           start_world) = Ok o
    /\ exists t, o = Some t.
Proof.
  destruct (module_type_read (blob_env "m.blob" (sample_blob 0x80000000 0 "")) "m.blob"
              start_world) as (o & Ho & _ & _ & _ & Hlong).
  exists o. split; [exact Ho|].
  apply (Hlong (sample_blob 0x80000000 0 "")); try reflexivity.
  vm_compute. lia.
Defined.

Lemma land_bit x n :
  0 <= n -> Z.land x (Z.shiftl 1 n) = if Z.testbit x n then 2 ^ n else 0.
Proof.
  intros Hn. rewrite Z.shiftl_1_l. apply Z.bits_inj'. intros i Hi.
  rewrite Z.land_spec, Z.pow2_bits_eqb by exact Hn.
  destruct (Z.eqb_spec n i) as [<- | Hne].
  - rewrite andb_true_r. destruct (Z.testbit x n) eqn:B.
    + symmetry. apply Z.pow2_bits_true, Hn.
    + symmetry. apply Z.bits_0.
  - rewrite andb_false_r. destruct (Z.testbit x n).
    + symmetry. apply Z.pow2_bits_false, Hne.
    + symmetry. apply Z.bits_0.
Qed.

Lemma truthy_is_debug m : truthy (is_debug m) = Z.testbit (type m) 31.
Proof.
  unfold truthy, is_debug. rewrite land_bit by lia.
  destruct (Z.testbit (type m) 31); reflexivity.
Qed.

(** X3: a module counts as a debug module exactly when bit 31 of its type is
    set, whatever the other bits are. Without [allow_debug] such a module is
    reported not TD-preserving capable at once: the version node is not
    read, and the module's versions are not looked at, so even malformed
    ones cannot make the call raise. *)
Theorem debug_module_is_gated env m w :
  truthy (is_debug m) = Z.testbit (type m) 31
  /\ (Z.testbit (type m) 31 = true -> allow_debug env = false ->
      is_td_preserving_capable env m w = (Ok false, w)).
Proof.
  split; [apply truthy_is_debug|].
  intros Hbit Hallow. unfold is_td_preserving_capable.
  rewrite truthy_is_debug, Hbit, Hallow. reflexivity.
Qed.

Lemma debug_module_is_gated_witness :
  is_td_preserving_capable (sample_platform "1.5")
    {| version := "not a version"; path := "x.blob";
       supported_CPU_family_model := [];
       min_module_version_for_td_preserving := "";
       min_seamldr_versions := []; tdx_feature0 := "";
       type := 0x80000001 |} start_world
  = (Ok false, start_world).
Proof.
  apply (proj2 (debug_module_is_gated (sample_platform "1.5") _ start_world));
    reflexivity.
Defined.

(** ** What the selector can return *)

Lemma filter_capable_sound env ms :
  forall w l w1,
    filter_capable env ms w = (Ok l, w1) ->
    forall m, m ∈ l ->
      m ∈ ms /\ exists w0, fst (is_td_preserving_capable env m w0) = Ok true.
Proof.
  induction ms as [|x ms IH]; intros w l w1; simpl.
  - intros [= <- _] m Hm. inversion Hm.
  - unfold bind at 1.
    destruct (is_td_preserving_capable env x w) as [[c| | |] w0] eqn:Ec;
      try discriminate.
    unfold bind at 1.
    destruct (filter_capable env ms w0) as [[l'| | |] w2] eqn:Ef; try discriminate.
    intros [= <- _] m Hm.
    destruct c.
    + apply elem_of_cons in Hm as [-> | Hm].
      * split; [left|]. exists w. rewrite Ec. reflexivity.
      * destruct (IH _ _ _ Ef m Hm) as [Hin Hw]. split; [right; exact Hin|exact Hw].
    + destruct (IH _ _ _ Ef m Hm) as [Hin Hw]. split; [right; exact Hin|exact Hw].
Qed.

Lemma sort_keys_snd l :
  forall keyed, sort_keys l = Ok keyed -> map snd keyed = l.
Proof.
  induction l as [|m l IH]; simpl; intros keyed.
  - intros [= <-]. reflexivity.
  - destruct (update_of (version m)) as [k| | |]; simpl; try discriminate.
    destruct (sort_keys l) as [kl| | |]; simpl; try discriminate.
    intros [= <-]. simpl. rewrite (IH kl eq_refl). reflexivity.
Qed.

Lemma insert_desc_in x s y : In y (insert_desc x s) -> y = x \/ In y s.
Proof.
  induction s as [|z s IH]; simpl.
  - intros [<- | []]. auto.
  - destruct (fst x <? fst z); simpl.
    + intros [<- | H]; [auto|]. destruct (IH H); auto.
    + intros [<- | [<- | H]]; auto.
Qed.

Lemma sort_desc_in l y : In y (sort_desc l) -> In y l.
Proof.
  unfold sort_desc. induction l as [|x l IH]; simpl; [auto|].
  intros H. apply insert_desc_in in H as [-> | H]; auto.
Qed.

(** What a verdict of [True] says about the module and the platform. *)
Lemma capable_true_inv env m w0 :
  fst (is_td_preserving_capable env m w0) = Ok true ->
  (Z.testbit (type m) 31 = false \/ allow_debug env = true)
  /\ exists cur cu mu pu,
      fst (get_current_module_version env w0) = Ok (Some cur)
      /\ update_of cur = Ok cu
      /\ update_of (version m) = Ok mu
      /\ update_of (min_module_version_for_td_preserving m) = Ok pu
      /\ major_minor_of (version m) = major_minor_of cur
      /\ cu <= mu /\ pu <= cu.
Proof.
  unfold is_td_preserving_capable. rewrite truthy_is_debug.
  destruct (Z.testbit (type m) 31 && negb (allow_debug env)) eqn:Hg; [discriminate|].
  unfold bind.
  destruct (get_current_module_version env w0) as [[[cur|]| | |] w1]; try discriminate.
  destruct cur as [|c s]; [discriminate|].
  unfold lift. simpl fst. intros Hv. split.
  - destruct (Z.testbit (type m) 31), (allow_debug env); simpl in Hg; auto; discriminate.
  - unfold td_preserving_verdict, rbind in Hv.
    destruct (update_of (String c s)) as [cu| | |] eqn:Ecu; try discriminate.
    destruct (update_of (version m)) as [mu| | |] eqn:Emu; try discriminate.
    destruct (update_of (min_module_version_for_td_preserving m)) as [pu| | |] eqn:Epu;
      try discriminate.
    injection Hv as Hv.
    apply andb_true_iff in Hv as [Hv Hp]. apply andb_true_iff in Hv as [Hs Hm].
    apply String.eqb_eq in Hs. apply Z.leb_le in Hm. apply Z.leb_le in Hp.
    exists (String c s), cu, mu, pu. auto 10.
Qed.

(** X4: whatever [find_newest_tdx_module] returns is a module of the list
    that passed the debug gate and whose own check read a current version
    of the same major.minor, with an update not above the module's and a
    declared minimum not above the current update: the selector never
    proposes a downgrade, another major.minor line, or a debug module that
    is not allowed. *)
Theorem newest_is_capable env ms w m w1 :
  find_newest_tdx_module env ms w = (Ok (Some m), w1) ->
  m ∈ ms
  /\ (Z.testbit (type m) 31 = false \/ allow_debug env = true)
  /\ exists w0 cur cu mu pu,
      fst (get_current_module_version env w0) = Ok (Some cur)
      /\ update_of cur = Ok cu
      /\ update_of (version m) = Ok mu
      /\ update_of (min_module_version_for_td_preserving m) = Ok pu
      /\ major_minor_of (version m) = major_minor_of cur
      /\ cu <= mu /\ pu <= cu.
Proof.
  unfold find_newest_tdx_module. unfold bind at 1.
  destruct (filter_capable env ms w) as [[l| | |] w0] eqn:Ef; try discriminate.
  unfold bind at 1, lift.
  destruct (sort_keys l) as [keyed| | |] eqn:Ek; try discriminate.
  unfold ret. intros [= Hhead _].
  assert (m ∈ l) as Hin.
  { rewrite <- (sort_keys_snd l keyed Ek). apply list_elem_of_In.
    destruct (sort_desc keyed) as [|[k y] s] eqn:Es; [discriminate|].
    simpl in Hhead. injection Hhead as ->.
    apply in_map_iff. exists (k, m). split; [reflexivity|].
    apply sort_desc_in. rewrite Es. left. reflexivity. }
  destruct (filter_capable_sound env ms w l w0 Ef m Hin) as [Hms [wc Hc]].
  split; [exact Hms|].
  destruct (capable_true_inv env m wc Hc) as [Hg (cur & cu & mu & pu & H)].
  split; [exact Hg|]. exists wc, cur, cu, mu, pu. exact H.
Qed.

Lemma newest_is_capable_witness :
  sample_module "1.5.12" "1.5.8" ["2.1.3"]
  ∈ [sample_module "1.5.9" "1.5.8" ["2.1.3"];
     sample_module "1.5.12" "1.5.8" ["2.1.3"];
     sample_module "1.5.10" "1.5.8" ["2.1.3"]].
Proof.
  apply (newest_is_capable (sample_platform "1.5.9")
           [sample_module "1.5.9" "1.5.8" ["2.1.3"];
            sample_module "1.5.12" "1.5.8" ["2.1.3"];
            sample_module "1.5.10" "1.5.8" ["2.1.3"]] start_world
           (sample_module "1.5.12" "1.5.8" ["2.1.3"])
           (snd (find_newest_tdx_module (sample_platform "1.5.9")
                   [sample_module "1.5.9" "1.5.8" ["2.1.3"];
                    sample_module "1.5.12" "1.5.8" ["2.1.3"];
                    sample_module "1.5.10" "1.5.8" ["2.1.3"]] start_world))).
  vm_compute. reflexivity.
Defined.

(** ** CPU and seamldr compatibility *)

Lemma get_current_seamldr_version_total env w :
  exists o w1, get_current_seamldr_version env w = (Ok o, w1).
Proof.
  unfold get_current_seamldr_version, try_except. unfold bind at 1.
  rewrite read_stripped_run.
  destruct (file_content env (tick w) _); [destruct (io_ok env _)|];
    eexists _, _; reflexivity.
Qed.

Lemma is_compatible_with_seamldr_total env m sv w :
  exists b w1, is_compatible_with_seamldr env m sv w = (Ok b, w1).
Proof.
  rewrite is_compatible_with_seamldr_run.
  destruct (unpack3 sv) as [c| | |]; try (eexists _, _; reflexivity).
  destruct (seamldr_scan _ _ _ _); eexists _, _; reflexivity.
Qed.

(** X5: [is_compatible] never raises. It returns [True] only if the seamldr
    version was read, the seamldr check on it returned [True], and the CPU
    identifier, read and with its stepping bits cleared, is in the module's
    table; a module whose table is empty is compatible with no CPU. *)
Theorem cpu_compatibility env m w :
  exists b w1,
    is_compatible env m w = (Ok b, w1)
    /\ (b = true ->
        (exists sv w', fst (get_current_seamldr_version env w) = Ok (Some sv)
                       /\ fst (is_compatible_with_seamldr env m sv w') = Ok true)
        /\ exists t eax, cpuid_1_eax env t = Some eax
                         /\ mask_stepping eax ∈ supported_CPU_family_model m)
    /\ (supported_CPU_family_model m = [] -> b = false).
Proof.
  unfold is_compatible. unfold bind at 1.
  destruct (get_current_seamldr_version_total env w) as (o & w1 & E1). rewrite E1.
  destruct o as [sv|];
    [|eexists _, _; split; [reflexivity|split; [discriminate|reflexivity]]].
  unfold bind at 1.
  destruct (is_compatible_with_seamldr_total env m sv w1) as (ok & w2 & E2). rewrite E2.
  destruct ok; cbv beta iota delta [negb];
    [|eexists _, _; split; [reflexivity|split; [discriminate|reflexivity]]].
  unfold bind at 1, get_cpuid_1_eax. cbv beta.
  destruct (cpuid_1_eax env (tick w2)) as [eax|] eqn:Ecpu.
  - eexists _, _. split; [reflexivity|]. split.
    + intros Hb. apply bool_decide_eq_true in Hb. split.
      * exists sv, w1. rewrite E2. auto.
      * eauto.
    + intros Hempty. apply bool_decide_eq_false. rewrite Hempty. apply not_elem_of_nil.
  - eexists _, _. split; [reflexivity|]. split; [discriminate|reflexivity].
Qed.

Lemma cpu_compatibility_witness :
  exists b w1,
    is_compatible (sample_platform "1.5.10")
      {| version := "1.5.12"; path := "x.blob"; supported_CPU_family_model := [];
         min_module_version_for_td_preserving := "1.5.8";
         min_seamldr_versions := ["2.1.3"]; tdx_feature0 := "0x0"; type := 0 |}
      start_world = (Ok b, w1)
    /\ b = false.
Proof.
  destruct (cpu_compatibility (sample_platform "1.5.10")
              {| version := "1.5.12"; path := "x.blob"; supported_CPU_family_model := [];
                 min_module_version_for_td_preserving := "1.5.8";
                 min_seamldr_versions := ["2.1.3"]; tdx_feature0 := "0x0"; type := 0 |}
              start_world) as (b & w1 & E & _ & Hempty).
  exists b, w1. split; [exact E|]. apply Hempty. reflexivity.
Defined.




(** ** The load protocol *)

(** X7: when the transfer goes through it has performed, in this order and
    nothing else: "1" written to the loading node, the data node opened,
    the blob opened and read whole, exactly those bytes written to the data
    node, "0" written to the loading node. *)
Theorem transfer_protocol env m w w1 :
  transfer env m w = (Ok tt, w1) ->
  exists bytes,
    file_content env (3 + tick w) (path m) = Some bytes
    /\ trace w1
       = (trace w ++
          [EvOpenW loading_node; EvWrite loading_node "1";
           EvOpenW data_node; EvOpen (path m); EvReadAll (path m);
           EvWrite data_node bytes;
           EvOpenW loading_node; EvWrite loading_node "0"])%list.
Proof.
  unfold transfer, write_file, open_r, read_all, guarded, bind, ret.
  repeat match goal with
         | |- context [if ?c then _ else _] =>
             destruct c eqn:?; cbv beta iota zeta; try discriminate
         | |- context [match file_content ?e ?t ?p with _ => _ end] =>
             destruct (file_content e t p) eqn:?; cbv beta iota zeta; try discriminate
         end.
  cbn [h_path h_data h_pos]. rewrite substring_all.
  intros [= <-].
  match goal with
  | H : file_content env _ (path m) = Some ?b |- _ =>
      exists b; split; [rewrite !tick_step in H; exact H|]
  end.
  rewrite !trace_step, <- !app_assoc. reflexivity.
Qed.

Lemma transfer_protocol_witness :
  exists bytes,
    file_content (loader_env 0 "") (3 + tick start_world)
      (path (sample_module "1.5.12" "1.5.8" ["2.1.3"])) = Some bytes
    /\ trace (snd (transfer (loader_env 0 "")
                     (sample_module "1.5.12" "1.5.8" ["2.1.3"]) start_world))
       = (trace start_world ++
          [EvOpenW loading_node; EvWrite loading_node "1";
           EvOpenW data_node;
           EvOpen (path (sample_module "1.5.12" "1.5.8" ["2.1.3"]));
           EvReadAll (path (sample_module "1.5.12" "1.5.8" ["2.1.3"]));
           EvWrite data_node bytes;
           EvOpenW loading_node; EvWrite loading_node "0"])%list.
Proof.
  apply (transfer_protocol (loader_env 0 "")
           (sample_module "1.5.12" "1.5.8" ["2.1.3"]) start_world).
  vm_compute. reflexivity.
Defined.

(** X8: when the blob cannot be opened, the loading node has been written
    "1" and the data node has been opened, and that is all: "0" is never
    written to the loading node, the error is printed, and the call returns
    normally rather than with a failure exit. *)
Theorem unreadable_blob_stays_armed env fuel m prev w :
  open_w_ok env (tick w) loading_node = true ->
  io_ok env (S (tick w)) = true ->
  open_w_ok env (S (S (tick w))) data_node = true ->
  file_content env (S (S (S (tick w)))) (path m) = None ->
  exists w2,
    install env fuel m prev w = (Ok RetNone, w2)
    /\ trace w2
       = (trace w ++
          [EvOpenW loading_node; EvWrite loading_node "1";
           EvOpenW data_node; EvOpen (path m);
           EvPrintExn "Error during installation: " OSError])%list.
Proof.
  intros H1 H2 H3 H4.
  unfold install, try_except, until_idle, transfer, write_file, open_r, guarded,
    bind, ret, print_exn, emit.
  rewrite H1. cbv beta iota zeta. rewrite ?tick_step, H2. cbv beta iota zeta.
  rewrite ?tick_step, H3. cbv beta iota zeta. rewrite ?tick_step, H4.
  cbv beta iota zeta.
  eexists. split; [reflexivity|].
  rewrite !trace_step, <- !app_assoc. reflexivity.
Qed.

Lemma unreadable_blob_stays_armed_witness :
  exists w2,
    install (loader_env 0 "") 20
      {| version := "1.5.12"; path := "missing.blob";
         supported_CPU_family_model := [0x000806F0];
         min_module_version_for_td_preserving := "1.5.8";
         min_seamldr_versions := ["2.1.3"]; tdx_feature0 := "0x0"; type := 0 |}
      (Some "1.5.10") start_world = (Ok RetNone, w2)
    /\ trace w2
       = (trace start_world ++
          [EvOpenW loading_node; EvWrite loading_node "1";
           EvOpenW data_node; EvOpen "missing.blob";
           EvPrintExn "Error during installation: " OSError])%list.
Proof.
  apply (unreadable_blob_stays_armed (loader_env 0 "") 20
           {| version := "1.5.12"; path := "missing.blob";
              supported_CPU_family_model := [0x000806F0];
              min_module_version_for_td_preserving := "1.5.8";
              min_seamldr_versions := ["2.1.3"]; tdx_feature0 := "0x0"; type := 0 |}
           (Some "1.5.10") start_world); reflexivity.
Defined.

Lemma poll_status_outcomes env start fuel :
  forall w,
    match fst (poll_status env fuel start w) with
    | SysExit n => n = 1
    | _ => True
    end.
Proof.
  induction fuel as [|fuel IH]; intros w; simpl; [exact I|].
  unfold bind at 1. rewrite read_stripped_run.
  destruct (file_content env (tick w) status_node) as [raw|]; [|exact I].
  destruct (io_ok env (S (tick w))); [|exact I].
  destruct (String.eqb (strip raw) "idle"); [exact I|].
  unfold bind at 1, time at 1. cbv beta zeta.
  destruct (negb (Qle_bool _ _)).
  - reflexivity.
  - unfold bind at 1, sleep at 1. apply IH.
Qed.

Lemma conclude_outcomes env prev w :
  match fst (conclude env prev w) with
  | Ok r => r = RetNone
  | SysExit n => n = 1
  | _ => True
  end.
Proof.
  unfold conclude. unfold bind at 1. rewrite read_stripped_run.
  destruct (file_content env (tick w) error_node) as [content|]; [|exact I].
  destruct (io_ok env (S (tick w))); [|exact I].
  destruct (negb (String.eqb (strip content) EmptyString)); [reflexivity|].
  unfold bind at 1.
  destruct (get_current_module_version_total env
              (step env (EvReadAll error_node) (step env (EvOpen error_node) w)))
    as (curr & w3 & E).
  rewrite E. reflexivity.
Qed.

Lemma transfer_outcomes env m w :
  match fst (transfer env m w) with
  | Ok _ | Raise _ => True
  | _ => False
  end.
Proof.
  unfold transfer, write_file, open_r, read_all, guarded, bind, ret.
  repeat match goal with
         | |- context [if ?c then _ else _] =>
             destruct c; cbv beta iota zeta; try exact I
         | |- context [match file_content ?e ?t ?p with _ => _ end] =>
             destruct (file_content e t p); cbv beta iota zeta; try exact I
         end.
Qed.

Lemma install_outcomes_match env fuel m prev w :
  match fst (install env fuel m prev w) with
  | Ok r => r = RetNone
  | Raise _ => False
  | SysExit n => n = 1
  | OutOfFuel => True
  end.
Proof.
  unfold install, try_except. unfold bind at 1. unfold until_idle.
  unfold bind at 1.
  pose proof (transfer_outcomes env m w) as Ht.
  destruct (transfer env m w) as [[[]| e | n |] w0]; simpl in Ht; try contradiction.
  - unfold bind at 1, time at 1. cbv beta zeta.
    pose proof (poll_status_outcomes env (clock (step env EvTime w0)) fuel
                  (step env EvTime w0)) as Hp.
    destruct (poll_status env fuel (clock (step env EvTime w0)) (step env EvTime w0))
      as [[[]| e | n |] wp]; simpl in Hp; subst; try reflexivity; try exact I.
    pose proof (conclude_outcomes env prev wp) as Hc.
    destruct (conclude env prev wp) as [[rc| e | n |] wc]; simpl in Hc; subst;
      try reflexivity; exact I.
  - reflexivity.
Qed.

(** X9: the [try] block of [update_tdx_module] never lets an exception out.
    It ends by returning [None] (after success, or after any exception,
    which is only printed), or by [sys.exit(1)]; no other exit code
    occurs. *)
Theorem install_outcomes env fuel m prev w :
  (forall e, fst (install env fuel m prev w) <> Raise e)
  /\ (forall n, fst (install env fuel m prev w) = SysExit n -> n = 1)
  /\ (forall r, fst (install env fuel m prev w) = Ok r -> r = RetNone).
Proof.
  pose proof (install_outcomes_match env fuel m prev w) as H.
  destruct (fst (install env fuel m prev w)) as [r| e | n |].
  - split; [discriminate|]. split; [discriminate|]. intros r' [= <-]. exact H.
  - contradiction.
  - split; [discriminate|]. split; [|discriminate]. intros n' [= <-]. exact H.
  - split; [discriminate|]. split; discriminate.
Qed.

Lemma install_outcomes_witness :
  exists n,
    fst (install (loader_env 0 "bad blob") 20
           (sample_module "1.5.12" "1.5.8" ["2.1.3"]) (Some "1.5.10") start_world)
    = SysExit n
    /\ n = 1.
Proof.
  eexists. split; [vm_compute; reflexivity|].
  apply (proj1 (proj2 (install_outcomes (loader_env 0 "bad blob") 20
                         (sample_module "1.5.12" "1.5.8" ["2.1.3"]) (Some "1.5.10")
                         start_world))).
  vm_compute. reflexivity.
Defined.

(** X10: when the three checks pass and the root of the control interface
    does not exist, [update_tdx_module] prints the error and ends in
    [sys.exit(1)]; after the checks it has only tested that the root
    exists: no node under it is opened, and the version node is not read
    again. *)
Theorem missing_control_root env fuel m w w1 w2 :
  is_compatible env m w = (Ok true, w1) ->
  truthy (is_debug m) && negb (allow_debug env) = false ->
  is_td_preserving_capable env m w1 = (Ok true, w2) ->
  path_exists env (tick w2) FIRMWARE_PATH = false ->
  update_tdx_module env fuel (Some m) w
  = (SysExit 1,
     step env (EvPrint ("Error: " ++ FIRMWARE_PATH ++ " does not exist."))
       (step env (EvExists FIRMWARE_PATH) w2)).
Proof.
  intros Hc Hg Hcap Hex. unfold update_tdx_module.
  unfold bind at 1. rewrite Hc. change (negb true) with false. cbv beta iota.
  rewrite Hg.
  unfold bind at 1. rewrite Hcap. change (negb true) with false. cbv beta iota.
  unfold bind at 1, path_exists_ at 1. rewrite Hex. reflexivity.
Qed.

(** The same platform without the control interface. *)
Lemma missing_control_root_witness :
  fst (update_tdx_module
         {| allow_debug := false;
            file_content := file_content (loader_env 0 "");
            io_ok := fun _ => true;
            open_w_ok := fun _ _ => true;
            path_exists := fun _ _ => false;
            json_load := fun _ _ => None;
            os_walk := fun _ _ => [];
            listdir := fun _ _ => [];
            cpuid_1_eax := fun _ => Some 0x000806F8;
            latency := fun _ => 0%Q |} 20
         (Some (sample_module "1.5.12" "1.5.8" ["2.1.3"])) start_world)
  = SysExit 1.
Proof.
  erewrite missing_control_root; [reflexivity| | | |].
  - vm_compute. reflexivity.
  - reflexivity.
  - vm_compute. reflexivity.
  - reflexivity.
Defined.

(** X11: the polling loop never gives up early: when it ends in
    [sys.exit], the code is 1, the last line printed is the timeout error,
    and, on a clock that does not run backwards, more than ten seconds
    have passed since the loop was entered. *)
Theorem timeout_not_early env start fuel :
  (forall t, (0 <= latency env t)%Q) ->
  forall w n w2,
    poll_status env fuel start w = (SysExit n, w2) ->
    n = 1
    /\ last (trace w2) = Some (EvPrint timeout_message)
    /\ (inject_Z timeout < clock w2 - start)%Q.
Proof.
  intros Hlat. induction fuel as [|fuel IH]; intros w n w2; simpl; [discriminate|].
  unfold bind at 1. rewrite read_stripped_run.
  destruct (file_content env (tick w) status_node) as [raw|]; [|discriminate].
  destruct (io_ok env (S (tick w))); [|discriminate].
  destruct (String.eqb (strip raw) "idle"); [discriminate|].
  unfold bind at 1, time at 1. cbv beta zeta.
  set (w1 := step env EvTime
               (step env (EvReadAll status_node) (step env (EvOpen status_node) w))).
  destruct (Qle_bool (clock w1 - start) (inject_Z timeout)) eqn:Hle;
    cbv beta iota delta [negb].
  - unfold bind at 1, sleep at 1. apply IH.
  - unfold bind, print, emit, sys_exit. intros [= <- <-].
    split; [reflexivity|]. split; [rewrite trace_step; apply last_snoc|].
    assert (~ (clock w1 - start <= inject_Z timeout)%Q) as Hgt.
    { intros H. apply Qle_bool_iff in H. congruence. }
    apply Qnot_le_lt in Hgt.
    pose proof (Hlat (tick w1)) as Hl.
    unfold step at 1. cbn [clock]. lra.
Qed.

Lemma timeout_not_early_witness :
  (inject_Z timeout
   < clock (snd (poll_status busy_env 12 0 start_world)) - 0)%Q.
Proof.
  refine (proj2 (proj2 (timeout_not_early busy_env 0%Q 12 _ start_world 1
                          (snd (poll_status busy_env 12 0 start_world)) _))).
  - intros t. vm_compute. discriminate.
  - vm_compute. reflexivity.
Defined.

(** ** Release records of the mapping file *)

Lemma releases_dict_lookup rs :
  forall d0 d v,
    releases_dict rs d0 = Ok d ->
    d !! v = match last (List.filter (fun r => bool_decide (rel_version r = Some v)) rs) with
             | Some r => Some r
             | None => d0 !! v
             end.
Proof.
  induction rs as [|x rs IH]; intros d0 d v; simpl.
  - intros [= <-]. reflexivity.
  - destruct (rel_version x) as [vx|] eqn:Ex; [|discriminate].
    intros H. rewrite (IH _ _ v H).
    destruct (bool_decide (Some vx = Some v)) eqn:B.
    + apply bool_decide_eq_true in B. injection B as <-.
      destruct (List.filter _ rs) as [|y l] eqn:F.
      * simpl. apply lookup_insert_eq.
      * change (last (x :: y :: l)) with (last (y :: l)).
        destruct (last (y :: l)) eqn:L; [reflexivity|].
        apply last_None in L. discriminate.
    + apply bool_decide_eq_false in B.
      destruct (last (List.filter _ rs)); [reflexivity|].
      apply lookup_insert_ne. congruence.
Qed.


(** X12: the table of release records is keyed by version, and for a
    version listed several times the last record of the file is the one
    found; a version that no record carries is not found. *)
Theorem releases_last_wins rs d v :
  releases_dict rs ∅ = Ok d ->
  d !! v = last (List.filter (fun r => bool_decide (rel_version r = Some v)) rs).
Proof.
  intros H. rewrite (releases_dict_lookup rs ∅ d v H).
  destruct (last _); [reflexivity|apply lookup_empty].
Qed.

Lemma releases_last_wins_witness :
  exists d,
    releases_dict [sample_release "1.5.06";
                   {| rel_version := Some "1.5.06";
                      rel_min_module_version_for_td_preserving := Some "1.5.05";
                      rel_min_seamldr_versions := None;
                      rel_tdx_feature0 := None |}] ∅ = Ok d
    /\ d !! "1.5.06"
       = Some {| rel_version := Some "1.5.06";
                 rel_min_module_version_for_td_preserving := Some "1.5.05";
                 rel_min_seamldr_versions := None;
                 rel_tdx_feature0 := None |}.
Proof.
  eexists. split; [reflexivity|].
  rewrite (releases_last_wins
             [sample_release "1.5.06";
              {| rel_version := Some "1.5.06";
                 rel_min_module_version_for_td_preserving := Some "1.5.05";
                 rel_min_seamldr_versions := None;
                 rel_tdx_feature0 := None |}] _ "1.5.06" eq_refl).
  reflexivity.
Defined.


(** ** Names of version directories and blobs *)

Lemma span_digits_app a r :
  all_digits a = true ->
  match r with String c _ => is_digit c = false | EmptyString => True end ->
  span_digits (a ++ r) = (a, r).
Proof.
  intros Ha Hr. induction a as [|c a IH].
  - destruct r as [|c r]; [reflexivity|]. simpl. rewrite Hr. reflexivity.
  - simpl in Ha. apply andb_true_iff in Ha as [Hc Ha].
    change (String c a ++ r) with (String c (a ++ r)). simpl.
    rewrite Hc, (IH Ha). reflexivity.
Qed.

Lemma match_number_app a r :
  is_number a = true ->
  match r with String c _ => is_digit c = false | EmptyString => True end ->
  match_number (a ++ r) = Some (a, r).
Proof.
  intros Ha Hr. unfold match_number.
  rewrite (span_digits_app a r (is_number_all_digits a Ha) Hr).
  destruct a; [discriminate|reflexivity].
Qed.

Lemma app_empty_r (s : string) : s ++ EmptyString = s.
Proof.
  induction s as [|c s IH]; [reflexivity|].
  change (String c s ++ EmptyString) with (String c (s ++ EmptyString)).
  rewrite IH. reflexivity.
Qed.

Lemma app_assoc_string (a b c : string) : (a ++ b) ++ c = a ++ (b ++ c).
Proof.
  induction a as [|x a IH]; [reflexivity|].
  change (String x (a ++ b) ++ c = String x (a ++ (b ++ c))).
  change (String x ((a ++ b) ++ c) = String x (a ++ (b ++ c))). rewrite IH. reflexivity.
Qed.

(** X14: a directory name is taken for a version directory exactly when it
    is a run of digits, a dot and a run of digits, possibly followed by one
    newline: "1.5" is, "1.5.0", "v1.5" and "1." are not. *)
Theorem version_dir_names s :
  is_version_dir s = true <->
  exists a b,
    is_number a = true /\ is_number b = true
    /\ (s = a ++ "." ++ b \/ s = a ++ "." ++ b ++ newline).
Proof.
  unfold is_version_dir. split.
  - destruct (match_number s) as [[a r1]|] eqn:Ma; [|discriminate].
    pose proof (match_number_spec _ _ _ Ma) as Ha.
    assert (s = a ++ r1) as Hs.
    { unfold match_number in Ma. pose proof (span_digits_spec s) as [_ H].
      destruct (span_digits s) as [[|c d] r]; [discriminate|].
      injection Ma as <- <-. exact H. }
    destruct r1 as [|c r2]; [discriminate|].
    change (strip_prefix "." (String c r2))
      with (if Ascii.eqb "." c then Some r2 else None).
    destruct (Ascii.eqb_spec "." c) as [<- | Hne]; [|discriminate].
    destruct (match_number r2) as [[b r3]|] eqn:Mb; [|discriminate].
    pose proof (match_number_spec _ _ _ Mb) as Hb.
    assert (r2 = b ++ r3) as Hr2.
    { unfold match_number in Mb. pose proof (span_digits_spec r2) as [_ H].
      destruct (span_digits r2) as [[|c d] r]; [discriminate|].
      injection Mb as <- <-. exact H. }
    intros H. apply orb_true_iff in H as [H | H]; apply String.eqb_eq in H; subst r3.
    + exists a, b. split; [exact Ha|]. split; [exact Hb|]. left.
      rewrite Hs, Hr2, app_empty_r. reflexivity.
    + exists a, b. split; [exact Ha|]. split; [exact Hb|]. right.
      rewrite Hs, Hr2. reflexivity.
  - intros (a & b & Ha & Hb & [-> | ->]).
    + rewrite (match_number_app a ("." ++ b) Ha) by reflexivity.
      change (strip_prefix "." ("." ++ b)) with (Some b).
      rewrite <- (app_empty_r b) at 1.
      rewrite (match_number_app b EmptyString Hb) by exact I. reflexivity.
    + rewrite (match_number_app a ("." ++ b ++ newline) Ha) by reflexivity.
      change (strip_prefix "." ("." ++ b ++ newline)) with (Some (b ++ newline)).
      cbv beta iota.
      rewrite (match_number_app b newline Hb) by reflexivity. reflexivity.
Qed.

Lemma split_single_app sep x y :
  split sep x = [x] -> split sep y = [y] -> split sep (x ++ y) = [x ++ y].
Proof.
  intros Hx Hy. induction x as [|c x IH].
  - exact Hy.
  - change (String c x ++ y) with (String c (x ++ y)). simpl in Hx. simpl split.
    destruct (Ascii.eqb c sep); [discriminate|].
    destruct (split sep x) as [|p [|q ps]] eqn:E; try discriminate.
    + injection Hx as <-. discriminate.
    + injection Hx as ->. rewrite (IH eq_refl). reflexivity.
Qed.

Lemma split_slash_digits d : all_digits d = true -> split "/" d = [d].
Proof.
  induction d as [|c d IH]; simpl; [reflexivity|].
  intros H. apply andb_true_iff in H as [Hc Hd].
  destruct (Ascii.eqb_spec c "/") as [-> | _]; [vm_compute in Hc; discriminate|].
  rewrite (IH Hd). reflexivity.
Qed.

(** The last component of a path that ends in a slash-free name. *)
Lemma split_slash_last n :
  split "/" n = [n] ->
  forall a, exists init,
    split "/" (a ++ String "/" n) = (init ++ [n])%list /\ init <> [].
Proof.
  intros Hn. induction a as [|c a (init & IH & Hne)].
  - exists [EmptyString]. change (EmptyString ++ String "/" n) with (String "/" n).
    simpl. rewrite Hn. split; [reflexivity|discriminate].
  - change (String c a ++ String "/" n) with (String c (a ++ String "/" n)).
    simpl. rewrite IH. destruct (Ascii.eqb c "/").
    + exists (EmptyString :: init). split; [reflexivity|discriminate].
    + destruct init as [|p init0]; [congruence|].
      exists (String c p :: init0). split; [reflexivity|discriminate].
Qed.

Lemma rev_app_slash a :
  forall acc,
    String.prefix "/" (String.rev_app a acc) = true ->
    (a = EmptyString /\ String.prefix "/" acc = true) \/ exists x, a = x ++ "/".
Proof.
  induction a as [|c a IH]; intros acc H; [auto|].
  right. simpl in H. destruct (IH _ H) as [[-> Hp] | [x ->]].
  - exists EmptyString.
    change (String.prefix "/" (String c acc))
      with (if Ascii.ascii_dec "/" c then String.prefix EmptyString acc else false) in Hp.
    destruct (Ascii.ascii_dec "/" c) as [<- | ne]; [reflexivity|discriminate].
  - exists (String c x). reflexivity.
Qed.

Lemma basename_join_blob dir x :
  split "/" x = [x] ->
  basename (path_join dir ("tdx_module_" ++ x)) = "tdx_module_" ++ x.
Proof.
  intros Hx.
  assert (split "/" ("tdx_module_" ++ x) = ["tdx_module_" ++ x]) as Hn
      by (apply split_single_app; [reflexivity|exact Hx]).
  unfold basename, path_join.
  change ("tdx_module_" ++ x) with (String "t" ("dx_module_" ++ x)) at 1.
  cbv iota.
  destruct dir as [|c dir].
  - rewrite Hn. reflexivity.
  - destruct (String.prefix "/" (String.rev (String c dir))) eqn:P.
    + apply rev_app_slash in P as [[? _] | [y Hy]]; [discriminate|].
      rewrite Hy, app_assoc_string.
      change ("/" ++ "tdx_module_" ++ x) with (String "/" ("tdx_module_" ++ x)).
      destruct (split_slash_last _ Hn y) as (init & -> & _).
      rewrite last_snoc. reflexivity.
    + change (String c dir ++ "/" ++ "tdx_module_" ++ x)
        with (String c dir ++ String "/" ("tdx_module_" ++ x)).
      destruct (split_slash_last _ Hn (String c dir)) as (init & -> & _).
      rewrite last_snoc. reflexivity.
Qed.

Lemma rev_app_app a b acc :
  String.rev_app (a ++ b) acc = String.rev_app b (String.rev_app a acc).
Proof.
  revert acc. induction a as [|c a IH]; intros acc; [reflexivity|].
  change (String c a ++ b) with (String c (a ++ b)). simpl. apply IH.
Qed.

(** X15: a blob named after a dotted-triple version is found and read back:
    the file "tdx_module_" a "." b "." c ".blob", for runs of digits a, b
    and c, matches the glob pattern, and the version searched in the base
    name of its path, in whatever directory, is a "." b "." c, a dotted
    triple. *)
Theorem blob_name_round_trip dir a b c :
  is_number a = true -> is_number b = true -> is_number c = true ->
  let v := a ++ "." ++ b ++ "." ++ c in
  let name := "tdx_module_" ++ v ++ ".blob" in
  is_blob_name name = true
  /\ search_blob_name (basename (path_join dir name)) = Some v
  /\ is_dotted_triple v = true.
Proof.
  intros Ha Hb Hc v name.
  assert (match_blob_name name = Some v) as Hm.
  { unfold name, v, match_blob_name.
    change (strip_prefix "tdx_module_" ("tdx_module_" ++ (a ++ "." ++ b ++ "." ++ c) ++ ".blob"))
      with (Some ((a ++ "." ++ b ++ "." ++ c) ++ ".blob")).
    cbv beta iota.
    rewrite !app_assoc_string.
    rewrite (match_number_app a _ Ha) by reflexivity.
    change (strip_prefix "." ("." ++ b ++ "." ++ c ++ ".blob"))
      with (Some (b ++ "." ++ c ++ ".blob")).
    cbv beta iota.
    rewrite (match_number_app b _ Hb) by reflexivity.
    change (strip_prefix "." ("." ++ c ++ ".blob")) with (Some (c ++ ".blob")).
    cbv beta iota.
    rewrite (match_number_app c _ Hc) by reflexivity.
    reflexivity. }
  split; [|split].
  - unfold is_blob_name, name.
    change (strip_prefix "tdx_module_" ("tdx_module_" ++ v ++ ".blob"))
      with (Some (v ++ ".blob")).
    cbv beta iota. unfold String.rev. rewrite rev_app_app. simpl.
    destruct (String.rev_app v EmptyString); reflexivity.
  - unfold name. rewrite basename_join_blob.
    + fold name. revert Hm. generalize name. intros n Hm.
      destruct n as [|x r]; [vm_compute in Hm; discriminate|].
      simpl. rewrite Hm. reflexivity.
    + unfold v. rewrite !app_assoc_string.
      repeat (apply split_single_app;
              try (apply split_slash_digits, is_number_all_digits; assumption);
              try reflexivity).
  - eapply match_blob_name_dotted, Hm.
Qed.

Lemma blob_name_round_trip_witness :
  is_blob_name "tdx_module_1.5.06.blob" = true
  /\ search_blob_name (basename (path_join "repo/joined_files/1.5" "tdx_module_1.5.06.blob"))
     = Some "1.5.06"
  /\ is_dotted_triple "1.5.06" = true.
Proof.
  apply (blob_name_round_trip "repo/joined_files/1.5" "1" "5" "06"); reflexivity.
Defined.

(** ** Listing *)


















(** ** The driver *)

Example main_finds_nothing_newer :
  let r := main driver_env "repo" "usage" 20
             {| arg_list := false; arg_update := Some None; arg_allow_debug := false |}
             start_world in
  fst r = Ok tt
  /\ last (trace (snd r))
     = Some (EvPrint "No newer Intel TDX module found for update.").
Proof. vm_compute. split; reflexivity. Qed.

(** *** Computations that write nothing *)

Lemma read_only_from_nothing {A} (c : M A) w : snd (c w) = w -> read_only_from c w.
Proof.
  intros H. exists []. rewrite H, app_nil_r. split; [reflexivity|constructor].
Qed.

Lemma read_only_ret {A} (a : A) : read_only (ret a).
Proof. intros w. apply read_only_from_nothing. reflexivity. Qed.

Lemma read_only_lift {A} (r : result A) : read_only (lift r).
Proof. intros w. apply read_only_from_nothing. reflexivity. Qed.

Lemma read_only_raise {A} e : read_only (@raise A e).
Proof. intros w. apply read_only_from_nothing. reflexivity. Qed.

Lemma read_only_sys_exit {A} n : read_only (@sys_exit A n).
Proof. intros w. apply read_only_from_nothing. reflexivity. Qed.

Lemma read_only_one {A} env (c : M A) ev :
  is_write ev = false -> (forall w, snd (c w) = step env ev w) -> read_only c.
Proof.
  intros Hev Hc w. exists [ev]. rewrite Hc. split; [reflexivity|].
  constructor; [exact Hev|constructor].
Qed.

Lemma read_only_emit env ev : is_write ev = false -> read_only (emit env ev).
Proof. intros H. apply (read_only_one env _ ev H). reflexivity. Qed.

Lemma read_only_guarded env ev ok : is_write ev = false -> read_only (guarded env ev ok).
Proof. intros H. apply (read_only_one env _ ev H). reflexivity. Qed.

Lemma read_only_print env line : read_only (print env line).
Proof. apply read_only_emit. reflexivity. Qed.

Lemma read_only_print_exn env prefix e : read_only (print_exn env prefix e).
Proof. apply read_only_emit. reflexivity. Qed.

Lemma read_only_from_bind {A B} (c : M A) (k : A -> M B) w :
  read_only_from c w ->
  (forall a w1, c w = (Ok a, w1) -> read_only_from (k a) w1) ->
  read_only_from (bind c k) w.
Proof.
  intros (evs & Ht & Hq) Hk. unfold read_only_from, bind.
  destruct (c w) as [[a| | |] w1] eqn:E; simpl in Ht;
    try (exists evs; split; [exact Ht|exact Hq]).
  destruct (Hk a w1 eq_refl) as (evs' & Ht' & Hq').
  exists (evs ++ evs')%list. rewrite Ht', Ht, app_assoc.
  split; [reflexivity|]. apply Forall_app. split; assumption.
Qed.

Lemma read_only_bind {A B} (c : M A) (k : A -> M B) :
  read_only c -> (forall a, read_only (k a)) -> read_only (bind c k).
Proof.
  intros Hc Hk w. apply read_only_from_bind; [apply Hc|]. intros a w1 _. apply Hk.
Qed.

Lemma read_only_try_except {A} (body : M A) (handler : exn -> M A) :
  read_only body -> (forall e, read_only (handler e)) ->
  read_only (try_except body handler).
Proof.
  intros Hb Hh w. destruct (Hb w) as (evs & Ht & Hq).
  unfold read_only_from, try_except.
  destruct (body w) as [[a| e | |] w1] eqn:E; simpl in Ht;
    try (exists evs; split; [exact Ht|exact Hq]).
  destruct (Hh e w1) as (evs' & Ht' & Hq').
  exists (evs ++ evs')%list. rewrite Ht', Ht, app_assoc.
  split; [reflexivity|]. apply Forall_app. split; assumption.
Qed.

Lemma read_only_attempt {A} (body : M A) : read_only body -> read_only (attempt body).
Proof.
  intros H. apply read_only_try_except.
  - apply read_only_bind; [exact H|]. intros a. apply read_only_ret.
  - intros e. apply read_only_ret.
Qed.

Lemma read_only_open_r env p : read_only (open_r env p).
Proof. apply (read_only_one env _ (EvOpen p)); reflexivity. Qed.

Lemma read_only_seek env h off : read_only (seek env h off).
Proof.
  apply read_only_bind; [apply read_only_guarded; reflexivity|].
  intros _. apply read_only_ret.
Qed.

Lemma read_only_read_n env h n : read_only (read_n env h n).
Proof.
  apply read_only_bind; [apply read_only_guarded; reflexivity|].
  intros _. apply read_only_ret.
Qed.

Lemma read_only_read_all env h : read_only (read_all env h).
Proof.
  apply read_only_bind; [apply read_only_guarded; reflexivity|].
  intros _. apply read_only_ret.
Qed.

Lemma read_only_read_u32 env f : read_only (read_u32 env f).
Proof.
  apply read_only_bind; [apply read_only_read_n|]. intros bf.
  destruct (negb _); [apply read_only_raise|].
  apply read_only_bind; [apply read_only_lift|]. intros v. apply read_only_ret.
Qed.

Lemma read_only_table_header env p : read_only (table_header env p).
Proof.
  apply read_only_bind; [apply read_only_open_r|]. intros f.
  apply read_only_bind; [apply read_only_seek|]. intros f1.
  apply read_only_bind; [apply read_only_read_u32|]. intros nf.
  apply read_only_bind; [apply read_only_seek|]. intros f2. apply read_only_ret.
Qed.

Lemma read_only_read_entries env k : forall f acc, read_only (read_entries env k f acc).
Proof.
  induction k as [|k IH]; intros f acc; simpl; [apply read_only_ret|].
  apply read_only_bind; [apply read_only_attempt, read_only_read_u32|].
  intros [e | [entry f']]; [apply read_only_ret|apply IH].
Qed.

Lemma read_only_get_supported_cpu_family_model env p :
  read_only (get_supported_cpu_family_model env p).
Proof.
  apply read_only_bind; [apply read_only_attempt, read_only_table_header|].
  intros [e | [n f]].
  - apply read_only_bind; [apply read_only_print_exn|]. intros _. apply read_only_ret.
  - apply read_only_bind; [apply read_only_read_entries|].
    intros [l [e|]]; [|apply read_only_ret].
    apply read_only_bind; [apply read_only_print_exn|]. intros _. apply read_only_ret.
Qed.

Lemma read_only_get_module_type env p : read_only (get_module_type env p).
Proof.
  apply read_only_try_except.
  - apply read_only_bind; [apply read_only_open_r|]. intros f.
    apply read_only_bind; [apply read_only_seek|]. intros f1.
    apply read_only_bind; [apply read_only_read_n|]. intros bf.
    apply read_only_bind; [apply read_only_lift|]. intros v. apply read_only_ret.
  - intros e. apply read_only_bind; [apply read_only_print_exn|].
    intros _. apply read_only_ret.
Qed.

Lemma read_only_examine_blob env info b : read_only (examine_blob env info b).
Proof.
  unfold examine_blob.
  destruct (search_blob_name (basename b)) as [v|]; [|apply read_only_ret].
  apply read_only_bind; [apply read_only_get_supported_cpu_family_model|]. intros l.
  apply read_only_bind; [apply read_only_get_module_type|]. intros t.
  destruct (info !! v) as [r|].
  - destruct t, (rel_min_module_version_for_td_preserving r),
      (rel_min_seamldr_versions r), (rel_tdx_feature0 r);
      try apply read_only_ret;
      (apply read_only_bind; [apply read_only_print|]; intros _; apply read_only_ret).
  - apply read_only_bind; [apply read_only_print|]. intros _. apply read_only_ret.
Qed.

Lemma read_only_collect_blobs env info bs :
  forall modules, read_only (collect_blobs env info bs modules).
Proof.
  induction bs as [|b bs IH]; intros modules; simpl; [apply read_only_ret|].
  apply read_only_bind; [apply read_only_examine_blob|]. intros r. apply IH.
Qed.

Lemma read_only_collect_dirs env info ds :
  forall modules, read_only (collect_dirs env info ds modules).
Proof.
  induction ds as [|d ds IH]; intros modules; simpl; [apply read_only_ret|].
  apply read_only_bind.
  - apply (read_only_one env _ (EvGlob d)); reflexivity.
  - intros bs. apply read_only_bind; [apply read_only_collect_blobs|].
    intros ms. apply IH.
Qed.

Lemma read_only_get_all_tdx_modules env dir : read_only (get_all_tdx_modules env dir).
Proof.
  apply read_only_try_except.
  - apply read_only_bind.
    { apply (read_only_one env _ (EvJsonLoad (path_join dir "mapping_file.json")));
        reflexivity. }
    intros rs. apply read_only_bind; [apply read_only_lift|]. intros info.
    apply read_only_bind.
    { apply (read_only_one env _ (EvWalk (path_join dir "joined_files"))); reflexivity. }
    intros walked. apply read_only_bind; [apply read_only_collect_dirs|].
    intros ms. apply read_only_ret.
  - intros e. apply read_only_bind; [apply read_only_print_exn|].
    intros _. apply read_only_ret.
Qed.

Lemma read_only_read_stripped env p : read_only (read_stripped env p).
Proof.
  apply read_only_bind; [apply read_only_open_r|]. intros f.
  apply read_only_bind; [apply read_only_read_all|]. intros s. apply read_only_ret.
Qed.

Lemma read_only_get_current_module_version env :
  read_only (get_current_module_version env).
Proof.
  apply read_only_try_except.
  - apply read_only_bind; [apply read_only_read_stripped|]. intros v. apply read_only_ret.
  - intros e. apply read_only_bind; [apply read_only_print_exn|].
    intros _. apply read_only_ret.
Qed.

Lemma read_only_is_td_preserving_capable env m :
  read_only (is_td_preserving_capable env m).
Proof.
  unfold is_td_preserving_capable.
  destruct (truthy (is_debug m) && negb (allow_debug env)); [apply read_only_ret|].
  apply read_only_bind; [apply read_only_get_current_module_version|].
  intros [[|c s]|]; try apply read_only_ret. apply read_only_lift.
Qed.

Lemma read_only_filter_capable env ms : read_only (filter_capable env ms).
Proof.
  induction ms as [|m ms IH]; simpl; [apply read_only_ret|].
  apply read_only_bind; [apply read_only_is_td_preserving_capable|]. intros c.
  apply read_only_bind; [exact IH|]. intros l. apply read_only_ret.
Qed.

Lemma read_only_find_newest_tdx_module env ms : read_only (find_newest_tdx_module env ms).
Proof.
  apply read_only_bind; [apply read_only_filter_capable|]. intros l.
  apply read_only_bind; [apply read_only_lift|]. intros keyed. apply read_only_ret.
Qed.

Lemma read_only_print_modules env ms : read_only (print_modules env ms).
Proof.
  induction ms as [|m ms IH]; simpl; [apply read_only_ret|].
  apply read_only_bind; [apply read_only_is_td_preserving_capable|]. intros c.
  apply read_only_bind; [apply read_only_print|]. intros _. exact IH.
Qed.

Lemma read_only_list_tdx_modules env ms : read_only (list_tdx_modules env ms).
Proof.
  apply read_only_bind; [apply read_only_lift|]. intros keyed.
  apply read_only_bind; [apply read_only_print_modules|]. intros _. apply read_only_ret.
Qed.

(** X17: [main] writes to a file only on its way through
    [update_tdx_module]: with [--list], with neither [--list] nor
    [--update], with a catalog that is missing or empty, or with a
    requested version that the catalog does not hold, no file is opened for
    writing and nothing is written. *)
Theorem main_read_only env0 dir help fuel args w :
  let env := set_allow_debug (arg_allow_debug args) env0 in
  arg_list args = true
  \/ arg_update args = None
  \/ fst (get_all_tdx_modules env dir w) = Ok None
  \/ fst (get_all_tdx_modules env dir w) = Ok (Some [])
  \/ (exists v,
        arg_update args = Some (Some v)
        /\ forall ms, fst (get_all_tdx_modules env dir w) = Ok (Some ms) ->
           List.find (fun module => String.eqb (version module) v) ms = None) ->
  read_only_from (main env0 dir help fuel args) w.
Proof.
  intros env Hcase. unfold main. fold env.
  apply read_only_from_bind; [apply read_only_get_all_tdx_modules|].
  intros modules w1 Hget. rewrite Hget in Hcase. simpl fst in Hcase.
  assert (read_only (print env "no Intel TDX module found" ;; @sys_exit unit 1)) as Hnone.
  { apply read_only_bind; [apply read_only_print|]. intros _. apply read_only_sys_exit. }
  destruct modules as [[|m ms]|]; [apply Hnone| |apply Hnone].
  destruct (arg_list args) eqn:Hlist.
  { apply read_only_bind; [apply read_only_list_tdx_modules|].
    intros _. apply read_only_ret. }
  destruct (arg_update args) as [[v|]|] eqn:Hupd.
  - destruct Hcase as [H | [H | [H | [H | (v' & Hv & Hfind)]]]]; try discriminate.
    injection Hv as <-. rewrite (Hfind _ eq_refl).
    apply read_only_bind; [apply read_only_find_newest_tdx_module|]. intros n.
    apply read_only_bind; [apply read_only_print|]. intros _. apply read_only_sys_exit.
  - destruct Hcase as [H | [H | [H | [H | (v' & Hv & _)]]]]; discriminate.
  - apply read_only_bind; [apply read_only_print|]. intros _. apply read_only_sys_exit.
Qed.

Lemma main_read_only_witness :
  read_only_from
    (main driver_env "repo" "usage" 20
       {| arg_list := false; arg_update := Some (Some "9.9.9"); arg_allow_debug := false |})
    start_world.
Proof.
  apply main_read_only. right. right. right. right.
  exists "9.9.9". split; [reflexivity|].
  intros ms Hms. vm_compute in Hms. injection Hms as <-. reflexivity.
Defined.

(** X18: [main] ends in [sys.exit(1)], its last line being the reason, when
    the catalog is missing or empty, when neither [--list] nor [--update]
    is given, and when [--update] names a version the catalog does not
    hold (the selection of the newest module, made first, having
    returned). *)
Theorem main_failure_exits env0 dir help fuel args w :
  let env := set_allow_debug (arg_allow_debug args) env0 in
  (fst (get_all_tdx_modules env dir w) = Ok None
   \/ fst (get_all_tdx_modules env dir w) = Ok (Some []) ->
   main env0 dir help fuel args w
   = (SysExit 1,
      step env (EvPrint "no Intel TDX module found")
        (snd (get_all_tdx_modules env dir w))))
  /\ (forall m ms w1,
        get_all_tdx_modules env dir w = (Ok (Some (m :: ms)), w1) ->
        arg_list args = false ->
        (arg_update args = None ->
         main env0 dir help fuel args w
         = (SysExit 1, step env (EvPrint help) w1))
        /\ (forall v n w2,
              arg_update args = Some (Some v) ->
              find_newest_tdx_module env (m :: ms) w1 = (Ok n, w2) ->
              List.find (fun module => String.eqb (version module) v) (m :: ms) = None ->
              main env0 dir help fuel args w
              = (SysExit 1,
                 step env (EvPrint ("Module version " ++ v ++ " does not exist.")) w2))).
Proof.
  intros env. split.
  - intros Hcat. unfold main. fold env. unfold bind at 1.
    destruct (get_all_tdx_modules env dir w) as [r w1]. simpl in Hcat.
    destruct Hcat as [-> | ->]; reflexivity.
  - intros m ms w1 Hget Hlist. split.
    + intros Hupd. unfold main. fold env. unfold bind at 1.
      rewrite Hget, Hlist, Hupd. reflexivity.
    + intros v n w2 Hupd Hnew Hfind. unfold main. fold env. unfold bind at 1.
      rewrite Hget, Hlist, Hupd. cbv beta iota. unfold bind at 1.
      rewrite Hnew. cbv beta iota. rewrite Hfind. reflexivity.
Qed.

Lemma main_failure_exits_witness :
  fst (main silent_env "repo" "usage" 20
         {| arg_list := true; arg_update := None; arg_allow_debug := true |} start_world)
  = SysExit 1.
Proof.
  rewrite (proj1 (main_failure_exits silent_env "repo" "usage" 20
                    {| arg_list := true; arg_update := None; arg_allow_debug := true |}
                    start_world)); [reflexivity|].
  left. reflexivity.
Defined.

(** ** No blob goes missing without a word *)

Section EmitsOnly.
Context (P : event -> bool).

Lemma emits_only_nothing {A} (c : M A) : (forall w, snd (c w) = w) -> emits_only P c.
Proof.
  intros H w. exists []. rewrite H, app_nil_r. split; [reflexivity|constructor].
Qed.

Lemma emits_only_one {A} env (c : M A) ev :
  P ev = true -> (forall w, snd (c w) = step env ev w) -> emits_only P c.
Proof.
  intros Hev Hc w. exists [ev]. rewrite Hc. split; [reflexivity|].
  constructor; [exact Hev|constructor].
Qed.

Lemma emits_only_bind {A B} (c : M A) (k : A -> M B) :
  emits_only P c -> (forall a, emits_only P (k a)) -> emits_only P (bind c k).
Proof.
  intros Hc Hk w. destruct (Hc w) as (evs & Ht & Hq). unfold bind.
  destruct (c w) as [[a| | |] w1] eqn:E; simpl in Ht;
    try (exists evs; split; [exact Ht|exact Hq]).
  destruct (Hk a w1) as (evs' & Ht' & Hq').
  exists (evs ++ evs')%list. rewrite Ht', Ht, app_assoc.
  split; [reflexivity|]. apply Forall_app. split; assumption.
Qed.

Lemma emits_only_try_except {A} (body : M A) (handler : exn -> M A) :
  emits_only P body -> (forall e, emits_only P (handler e)) ->
  emits_only P (try_except body handler).
Proof.
  intros Hb Hh w. destruct (Hb w) as (evs & Ht & Hq). unfold try_except.
  destruct (body w) as [[a| e | |] w1] eqn:E; simpl in Ht;
    try (exists evs; split; [exact Ht|exact Hq]).
  destruct (Hh e w1) as (evs' & Ht' & Hq').
  exists (evs ++ evs')%list. rewrite Ht', Ht, app_assoc.
  split; [reflexivity|]. apply Forall_app. split; assumption.
Qed.

Lemma emits_only_attempt {A} (body : M A) :
  emits_only P body -> emits_only P (attempt body).
Proof.
  intros H. apply emits_only_try_except.
  - apply emits_only_bind; [exact H|]. intros a. apply emits_only_nothing. reflexivity.
  - intros e. apply emits_only_nothing. reflexivity.
Qed.

End EmitsOnly.

Ltac blob_step :=
  first
    [ apply emits_only_bind; [|intros ?]
    | apply emits_only_nothing; intros; reflexivity
    | eapply emits_only_one; cycle 1; [intros; reflexivity|reflexivity] ].

Lemma blob_access_seek env h off : emits_only blob_access (seek env h off).
Proof. unfold seek, guarded. repeat blob_step. Qed.

Lemma blob_access_read_n env h n : emits_only blob_access (read_n env h n).
Proof. unfold read_n, guarded. repeat blob_step. Qed.

Lemma blob_access_read_u32 env f : emits_only blob_access (read_u32 env f).
Proof.
  apply emits_only_bind; [apply blob_access_read_n|]. intros bf.
  destruct (negb _); repeat blob_step.
Qed.

Lemma blob_access_table_header env p : emits_only blob_access (table_header env p).
Proof.
  apply emits_only_bind; [blob_step|]. intros f.
  apply emits_only_bind; [apply blob_access_seek|]. intros f1.
  apply emits_only_bind; [apply blob_access_read_u32|]. intros nf.
  apply emits_only_bind; [apply blob_access_seek|]. intros f2. blob_step.
Qed.

Lemma blob_access_read_entries env k :
  forall f acc, emits_only blob_access (read_entries env k f acc).
Proof.
  induction k as [|k IH]; intros f acc; simpl; [blob_step|].
  apply emits_only_bind; [apply emits_only_attempt, blob_access_read_u32|].
  intros [e | [entry f']]; [blob_step|apply IH].
Qed.

Lemma blob_access_print_exn env prefix e :
  emits_only blob_access (print_exn env prefix e).
Proof. unfold print_exn, emit. blob_step. Qed.

Lemma blob_access_get_supported_cpu_family_model env p :
  emits_only blob_access (get_supported_cpu_family_model env p).
Proof.
  apply emits_only_bind; [apply emits_only_attempt, blob_access_table_header|].
  intros [e | [n f]].
  - apply emits_only_bind; [apply blob_access_print_exn|]. intros _. blob_step.
  - apply emits_only_bind; [apply blob_access_read_entries|].
    intros [l [e|]]; [|blob_step].
    apply emits_only_bind; [apply blob_access_print_exn|]. intros _. blob_step.
Qed.

Lemma blob_access_get_module_type env p :
  emits_only blob_access (get_module_type env p).
Proof.
  apply emits_only_try_except.
  - apply emits_only_bind; [blob_step|]. intros f.
    apply emits_only_bind; [apply blob_access_seek|]. intros f1.
    apply emits_only_bind; [apply blob_access_read_n|]. intros bf.
    repeat blob_step.
  - intros e. apply emits_only_bind; [apply blob_access_print_exn|].
    intros _. blob_step.
Qed.

(** What one pass of the loop over the blobs of a directory does. *)
Lemma examine_blob_report env info b w :
  exists o w1 evs,
    examine_blob env info b w = (Ok o, w1)
    /\ trace w1 = (trace w ++ evs)%list
    /\ Forall (fun ev => forall d, ev <> EvGlob d) evs
    /\ match search_blob_name (basename b) with
       | None => o = None
       | Some v =>
           (exists m, o = Some m /\ path m = b /\ version m = v)
           \/ (o = None /\ reported evs v)
       end.
Proof.
  unfold examine_blob.
  destruct (search_blob_name (basename b)) as [v|] eqn:Hv.
  2:{ exists None, w, []. rewrite app_nil_r. repeat split. constructor. }
  destruct (get_supported_cpu_family_model_ok env b w) as (l & w1 & Hl).
  destruct (blob_access_get_supported_cpu_family_model env b w) as (e1 & T1 & F1).
  rewrite Hl in T1. simpl in T1.
  destruct (get_module_type_cases env b w1) as (t & w2 & Ht & _).
  destruct (blob_access_get_module_type env b w1) as (e2 & T2 & F2).
  rewrite Ht in T2. simpl in T2.
  assert (G : forall evs, Forall (fun ev => blob_access ev = true) evs ->
                          Forall (fun ev => forall d, ev <> EvGlob d) evs).
  { intros evs H. eapply Forall_impl; [exact H|]. intros ev Hev d ->. discriminate. }
  unfold bind at 1. rewrite Hl. unfold bind at 1. rewrite Ht.
  assert (Skip : forall line, skip_line v line ->
    exists o' w' evs,
      (print env line ;; ret (@None TdxModule)) w2 = (Ok o', w')
      /\ trace w' = (trace w ++ evs)%list
      /\ Forall (fun ev => forall d, ev <> EvGlob d) evs
      /\ ((exists m, o' = Some m /\ path m = b /\ version m = v)
          \/ (o' = None /\ reported evs v))).
  { intros line Hline.
    exists None, (step env (EvPrint line) w2), (e1 ++ e2 ++ [EvPrint line])%list.
    split; [reflexivity|]. split.
    { unfold step. cbn [trace]. rewrite T2, T1, <- !app_assoc. reflexivity. }
    split.
    { rewrite !Forall_app. split; [auto|]. split; [auto|].
      constructor; [discriminate|constructor]. }
    right. split; [reflexivity|]. exists line. split; [exact Hline|].
    rewrite !elem_of_app. right. right. apply list_elem_of_here. }
  destruct (info !! v) as [r|].
  - destruct t as [t|], (rel_min_module_version_for_td_preserving r) as [mv|],
      (rel_min_seamldr_versions r) as [sv|], (rel_tdx_feature0 r) as [f0|];
      try (apply Skip; right; reflexivity).
    eexists _, w2, (e1 ++ e2)%list. split; [reflexivity|]. split.
    { rewrite T2, T1, <- app_assoc. reflexivity. }
    split; [rewrite Forall_app; auto|].
    left. eexists. split; [reflexivity|]. split; reflexivity.
  - apply Skip. left. reflexivity.
Qed.

Lemma collect_blobs_report env info blobs :
  forall acc w,
    exists ms w1 evs,
      collect_blobs env info blobs acc w = (Ok ms, w1)
      /\ trace w1 = (trace w ++ evs)%list
      /\ Forall (fun ev => forall d, ev <> EvGlob d) evs
      /\ (forall m, m ∈ acc -> m ∈ ms)
      /\ forall b v, b ∈ blobs -> search_blob_name (basename b) = Some v ->
           catalogued ms b v \/ reported evs v.
Proof.
  induction blobs as [|b0 bs IH]; intros acc w; simpl.
  - exists acc, w, []. rewrite app_nil_r.
    split; [reflexivity|]. split; [reflexivity|]. split; [constructor|].
    split; [auto|]. intros b v Hb. inversion Hb.
  - destruct (examine_blob_report env info b0 w) as (o & w1 & e1 & E & T1 & F1 & H1).
    unfold bind at 1. rewrite E.
    destruct (IH (match o with Some module => (acc ++ [module])%list | None => acc end) w1)
      as (ms & w2 & e2 & E2 & T2 & F2 & Hacc & H2).
    exists ms, w2, (e1 ++ e2)%list. split; [exact E2|]. split.
    { rewrite T2, T1, <- app_assoc. reflexivity. }
    split; [rewrite Forall_app; auto|]. split.
    { intros m Hm. apply Hacc. destruct o; [apply elem_of_app; left|]; exact Hm. }
    intros b v Hb Hv. apply elem_of_cons in Hb as [->|Hb].
    + rewrite Hv in H1. destruct H1 as [(m & -> & Hp & Hver) | (_ & line & Hl & Hin)].
      * left. exists m. split; [|split; assumption].
        apply Hacc, elem_of_app. right. apply list_elem_of_here.
      * right. exists line. split; [exact Hl|]. apply elem_of_app. left. exact Hin.
    + destruct (H2 b v Hb Hv) as [Hc | (line & Hl & Hin)]; [left; exact Hc|].
      right. exists line. split; [exact Hl|]. apply elem_of_app. right. exact Hin.
Qed.

Lemma collect_dirs_report env info dirs :
  forall acc w,
    exists ms w1 evs,
      collect_dirs env info dirs acc w = (Ok ms, w1)
      /\ trace w1 = (trace w ++ evs)%list
      /\ (forall m, m ∈ acc -> m ∈ ms)
      /\ forall i d name v,
           evs !! i = Some (EvGlob d) ->
           name ∈ listdir env (tick w + i) d -> is_blob_name name = true ->
           search_blob_name (basename (path_join d name)) = Some v ->
           catalogued ms (path_join d name) v \/ reported evs v.
Proof.
  induction dirs as [|d0 ds IH]; intros acc w; simpl.
  - exists acc, w, []. rewrite app_nil_r.
    split; [reflexivity|]. split; [reflexivity|]. split; [auto|].
    intros i d name v Hi. discriminate.
  - unfold bind at 1, glob_blobs at 1.
    destruct (collect_blobs_report env info
                (map (path_join d0) (List.filter is_blob_name (listdir env (tick w) d0)))
                acc (step env (EvGlob d0) w))
      as (ms1 & w1 & e1 & E1 & T1 & F1 & Hacc1 & H1).
    unfold bind at 1. rewrite E1.
    destruct (IH ms1 w1) as (ms & w2 & e2 & E2 & T2 & Hacc2 & H2).
    exists ms, w2, (EvGlob d0 :: e1 ++ e2)%list. split; [exact E2|]. split.
    { rewrite T2, T1. unfold step. cbn [trace]. rewrite <- !app_assoc. reflexivity. }
    split; [auto|].
    assert (Tick1 : tick w1 = (tick w + S (length e1))%nat).
    { unfold tick. rewrite T1. unfold step. cbn [trace].
      rewrite !length_app. simpl. lia. }
    intros i d name v Hi Hname Hblob Hv.
    destruct i as [|i].
    + injection Hi as <-. rewrite Nat.add_0_r in Hname.
      destruct (H1 (path_join d0 name) v) as [(m & Hm & Hp & Hver) | (line & Hl & Hin)].
      * apply list_elem_of_In, in_map, filter_In.
        split; [apply list_elem_of_In, Hname|exact Hblob].
      * exact Hv.
      * left. exists m. auto.
      * right. exists line. split; [exact Hl|].
        apply list_elem_of_further, elem_of_app. left. exact Hin.
    + simpl in Hi. destruct (decide (i < length e1)%nat) as [Hlt|Hge].
      * rewrite lookup_app_l in Hi by exact Hlt.
        apply list_elem_of_lookup_2 in Hi.
        rewrite Forall_forall in F1. exfalso. exact (F1 _ Hi d eq_refl).
      * rewrite lookup_app_r in Hi by lia.
        destruct (H2 (i - length e1)%nat d name v Hi) as [Hc | (line & Hl & Hin)];
          [|exact Hblob|exact Hv|left; exact Hc|].
        { rewrite Tick1. replace (tick w + S (length e1) + (i - length e1))%nat
            with (tick w + S i)%nat by lia. exact Hname. }
        right. exists line. split; [exact Hl|].
        apply list_elem_of_further, elem_of_app. right. exact Hin.
Qed.

(** X19: no blob that carries a version in its name goes missing from the
    catalog without a word. When [get_all_tdx_modules] returns a catalog,
    each file that a [glob] of the run returned and whose name holds a
    dotted triple is either in the catalog, with its path and that
    version, or a line "Skipping module <version>: ..." was printed for
    its version. *)
Theorem blobs_kept_or_reported env directory w ms w1 :
  get_all_tdx_modules env directory w = (Ok (Some ms), w1) ->
  exists evs,
    trace w1 = (trace w ++ evs)%list
    /\ forall i d name v,
         evs !! i = Some (EvGlob d) ->
         name ∈ listdir env (tick w + i) d -> is_blob_name name = true ->
         search_blob_name (basename (path_join d name)) = Some v ->
         catalogued ms (path_join d name) v \/ reported evs v.
Proof.
  unfold get_all_tdx_modules, try_except. cbv zeta.
  unfold bind at 1, load_releases at 1.
  destruct (json_load env (tick w) (path_join directory "mapping_file.json"))
    as [releases|]; simpl of_option; cbv beta iota; [|discriminate].
  unfold bind at 1, lift at 1.
  destruct (releases_dict releases ∅) as [info| | |]; cbv beta iota; try discriminate.
  unfold bind at 1, walk at 1. cbv beta iota.
  set (w0 := step env (EvWalk _) (step env (EvJsonLoad _) w)).
  set (dirs := version_dirs_of _).
  destruct (collect_dirs_report env info dirs [] w0) as (ms' & w2 & evs & E & T & _ & H).
  unfold bind at 1. rewrite E. unfold ret. cbv beta iota. intros [= <- <-].
  exists (EvJsonLoad (path_join directory "mapping_file.json")
          :: EvWalk (path_join directory "joined_files") :: evs)%list.
  split.
  { rewrite T. unfold w0, step. cbn [trace]. rewrite <- !app_assoc. reflexivity. }
  intros i d name v Hi Hname Hblob Hv.
  destruct i as [|[|i]]; try discriminate. simpl in Hi.
  assert (Tick0 : tick w0 = (tick w + 2)%nat).
  { unfold tick, w0, step. cbn [trace]. rewrite !length_app. simpl. lia. }
  destruct (H i d name v Hi) as [Hc | (line & Hl & Hin)];
    [|exact Hblob|exact Hv|left; exact Hc|].
  { rewrite Tick0. replace (tick w + 2 + i)%nat with (tick w + S (S i))%nat by lia.
    exact Hname. }
  right. exists line. split; [exact Hl|].
  apply list_elem_of_further, list_elem_of_further. exact Hin.
Qed.

Lemma blobs_kept_or_reported_witness :
  exists evs,
    trace (snd (get_all_tdx_modules catalog_env "repo" start_world))
    = (trace start_world ++ evs)%list
    /\ reported evs "1.5.07".
Proof.
  destruct (blobs_kept_or_reported catalog_env "repo" start_world
              [ {| version := "1.5.06";
                   path := "repo/joined_files/1.5/tdx_module_1.5.06.blob";
                   supported_CPU_family_model := [0x000806F0];
                   min_module_version_for_td_preserving := "1.5.01";
                   min_seamldr_versions := ["2.1.3"];
                   tdx_feature0 := "0x0";
                   type := 0 |} ]
              (snd (get_all_tdx_modules catalog_env "repo" start_world)))
    as (evs & T & H).
  { vm_compute. reflexivity. }
  exists evs. split; [exact T|].
  destruct (H 2%nat "repo/joined_files/1.5" "tdx_module_1.5.07.blob" "1.5.07")
    as [(m & Hm & Hp & _) | Hr].
  - vm_compute in T. subst evs. reflexivity.
  - apply list_elem_of_In. vm_compute. right. left. reflexivity.
  - vm_compute. reflexivity.
  - vm_compute. reflexivity.
  - apply list_elem_of_singleton in Hm. subst m. discriminate Hp.
  - exact Hr.
Defined.
